(** * logging_utils.py: a two-function facade over Python's [logging]

    The module configures the root logger once with
    [logging.basicConfig(level=logging.INFO, format='%(asctime)s - %(levelname)s - %(message)s')]
    and exposes [log_info] and [log_error], which forward to [logging.info]
    and [logging.error].  Everything observable is decided by the standard
    [logging] package, so the embedding follows the call chain the module
    enters there (CPython 3.11, [logging/__init__.py]):

      logging.info -> Logger.info -> Logger.isEnabledFor -> Logger._log
        -> LogRecord.__init__ -> Logger.handle -> Logger.callHandlers
        -> Handler.handle -> StreamHandler.emit -> Formatter.format
        -> stream.write, and Handler.handleError when the write fails.

    Python state is threaded explicitly through a small state-and-exception
    monad; file objects live in a store indexed by identity, so that the
    handler's stream and [sys.stderr] can be the same object. *)

From Stdlib Require Import ZArith String Ascii List Decimal DecimalString.
From stdpp Require Import base option gmap strings list.

Local Open Scope string_scope.
Local Open Scope Z_scope.
Local Open Scope list_scope.

(** ** Text helpers *)

(** ['\n'] *)
Definition LF : string := String (ascii_of_nat 10) "".

(** [str(n)] for a non-negative integer. *)
Definition str_nat (n : nat) : string := NilZero.string_of_uint (Nat.to_uint n).

(** [str(z)] for an integer. *)
Definition str_int (z : Z) : string := NilZero.string_of_int (Z.to_int z).

Fixpoint zeros (k : nat) : string :=
  match k with
  | O => ""
  | S k' => String "0" (zeros k')
  end.

(** [s.zfill(width)] on a digit string: what the C conversions [%02d] and
    [%03d] do to a non-negative number. *)
Definition zfill (width : nat) (s : string) : string :=
  zeros (width - String.length s) +:+ s.

(** [needle in hay], as [hay.find(needle) >= 0]. *)
Fixpoint contains (needle hay : string) : bool :=
  String.prefix needle hay ||
  match hay with
  | "" => false
  | String _ hay' => contains needle hay'
  end.

(** ** Exceptions and results *)

Inductive exn : Type :=
  | OSError
  | ValueError
  | TypeError
  | KeyError
  | AttributeError
  | RecursionError
  | KeyboardInterrupt.

(** [isinstance(e, Exception)]: of the classes above only
    [KeyboardInterrupt] derives from [BaseException] directly. *)
Definition is_Exception (e : exn) : bool :=
  match e with
  | KeyboardInterrupt => false
  | _ => true
  end.

Inductive result (A : Type) : Type :=
  | Returned (a : A)
  | Raised (e : exn).
Arguments Returned {A} a.
Arguments Raised {A} e.

Definition result_bind {A B} (r : result A) (k : A -> result B) : result B :=
  match r with
  | Returned a => k a
  | Raised e => Raised e
  end.

Definition result_map {A B} (f : A -> B) (r : result A) : result B :=
  result_bind r (fun a => Returned (f a)).

(** ** The [%] operator on strings

    Two uses occur on the path of a log call: [self._fmt % record.__dict__]
    (mapping operand, [PercentStyle._format]) and [msg % self.args] (tuple
    operand, [LogRecord.getMessage]).  The model covers the directives
    [%(key)s], [%s] and [%%]; every operand value is given by its [str()].
    Other conversion types, flags, widths and precisions are outside the
    model and are answered like an unsupported format character. *)

Inductive fstate : Type :=
  | FLit                              (* copying literal text *)
  | FPercent                          (* just read '%' *)
  | FKey (acc : string) (depth : nat) (* inside '%(' ... ')' *)
  | FConv (key : string).             (* read '%(key)', expecting the type *)

Definition snoc (s : string) (c : ascii) : string := s +:+ String c "".

Fixpoint percent_mapping (values : gmap string string) (st : fstate)
    (fmt : string) : result string :=
  match fmt with
  | "" =>
      match st with
      | FLit => Returned ""
      | _ => Raised ValueError     (* incomplete format / incomplete format key *)
      end
  | String c rest =>
      match st with
      | FLit =>
          if Ascii.eqb c "%" then percent_mapping values FPercent rest
          else result_map (String c) (percent_mapping values FLit rest)
      | FPercent =>
          if Ascii.eqb c "%" then
            result_map (String "%") (percent_mapping values FLit rest)
          else if Ascii.eqb c "(" then percent_mapping values (FKey "" 0) rest
          else Raised ValueError
      | FKey acc depth =>
          if Ascii.eqb c ")" then
            match depth with
            | O => percent_mapping values (FConv acc) rest
            | S d => percent_mapping values (FKey (snoc acc c) d) rest
            end
          else if Ascii.eqb c "(" then
            percent_mapping values (FKey (snoc acc c) (S depth)) rest
          else percent_mapping values (FKey (snoc acc c) depth) rest
      | FConv key =>
          if Ascii.eqb c "s" then
            match values !! key with
            | Some v =>
                result_map (String.append v) (percent_mapping values FLit rest)
            | None => Raised KeyError
            end
          else Raised ValueError
      end
  end.

Fixpoint percent_tuple (args : list string) (pct : bool) (fmt : string)
    : result string :=
  match fmt with
  | "" =>
      if pct then Raised ValueError            (* incomplete format *)
      else match args with
           | [] => Returned ""
           | _ :: _ => Raised TypeError        (* not all arguments converted *)
           end
  | String c rest =>
      if pct then
        if Ascii.eqb c "%" then
          result_map (String "%") (percent_tuple args false rest)
        else if Ascii.eqb c "s" then
          match args with
          | a :: args' =>
              result_map (String.append a) (percent_tuple args' false rest)
          | [] => Raised TypeError             (* not enough arguments *)
          end
        else Raised ValueError
      else if Ascii.eqb c "%" then percent_tuple args true rest
      else result_map (String c) (percent_tuple args false rest)
  end.

(** ** Wall-clock readings

    [LogRecord.__init__] reads [time.time()]; [Formatter.formatTime] turns
    it into local time with [time.localtime] and keeps the milliseconds
    apart.  The float arithmetic is not modelled: a reading is the broken
    down local time together with the millisecond count. *)

Record WallClock : Type := {
  tm_year : nat;
  tm_mon : nat;
  tm_mday : nat;
  tm_hour : nat;
  tm_min : nat;
  tm_sec : nat;
  msecs : nat
}.

(** [time.strftime('%Y-%m-%d %H:%M:%S', ct)]: the year in decimal, the
    other fields padded with zeros to two digits. *)
Definition strftime_default (ct : WallClock) : string :=
  str_nat (tm_year ct) +:+ "-" +:+ zfill 2 (str_nat (tm_mon ct)) +:+ "-" +:+
  zfill 2 (str_nat (tm_mday ct)) +:+ " " +:+
  zfill 2 (str_nat (tm_hour ct)) +:+ ":" +:+ zfill 2 (str_nat (tm_min ct)) +:+
  ":" +:+ zfill 2 (str_nat (tm_sec ct)).

(** ** Log records

    The attributes of [LogRecord] that the format strings in use
    ([FORMAT], [BASIC_FORMAT] and the default ['%(message)s']) can reach.
    [msg] is text (the facade's contract), [args] holds the positional
    arguments by their [str()].  The facade passes neither [exc_info] nor
    [stack_info], so both stay [None] and the branches of
    [Formatter.format] that append them are not entered. *)

Record LogRecord : Type := {
  LogRecord_name : string;
  LogRecord_msg : string;
  LogRecord_args : list string;
  LogRecord_levelname : string;
  LogRecord_levelno : Z;
  LogRecord_created : WallClock;
  LogRecord_message : option string;    (* set by Formatter.format *)
  LogRecord_asctime : option string     (* set by Formatter.format *)
}.

Definition CRITICAL : Z := 50.
Definition ERROR : Z := 40.
Definition WARNING : Z := 30.
Definition INFO : Z := 20.
Definition DEBUG : Z := 10.
Definition NOTSET : Z := 0.

Definition _levelToName : gmap Z string :=
  <[CRITICAL := "CRITICAL"]> (<[ERROR := "ERROR"]> (<[WARNING := "WARNING"]>
  (<[INFO := "INFO"]> (<[DEBUG := "DEBUG"]> (<[NOTSET := "NOTSET"]> ∅))))).

(** [getLevelName(level)] for an integer level. *)
Definition getLevelName (level : Z) : string :=
  match _levelToName !! level with
  | Some result => result
  | None => "Level " +:+ str_int level
  end.

(** [record.__dict__], each value by its [str()]. *)
Definition LogRecord_dict (r : LogRecord) : gmap string string :=
  let d := <["name" := LogRecord_name r]> (<["msg" := LogRecord_msg r]>
           (<["levelname" := LogRecord_levelname r]>
           (<["levelno" := str_int (LogRecord_levelno r)]> ∅))) in
  let d := match LogRecord_message r with
           | Some m => <["message" := m]> d
           | None => d
           end in
  match LogRecord_asctime r with
  | Some a => <["asctime" := a]> d
  | None => d
  end.

Definition set_message (m : string) (r : LogRecord) : LogRecord :=
  {| LogRecord_name := LogRecord_name r; LogRecord_msg := LogRecord_msg r;
     LogRecord_args := LogRecord_args r;
     LogRecord_levelname := LogRecord_levelname r;
     LogRecord_levelno := LogRecord_levelno r;
     LogRecord_created := LogRecord_created r;
     LogRecord_message := Some m; LogRecord_asctime := LogRecord_asctime r |}.

Definition set_asctime (a : string) (r : LogRecord) : LogRecord :=
  {| LogRecord_name := LogRecord_name r; LogRecord_msg := LogRecord_msg r;
     LogRecord_args := LogRecord_args r;
     LogRecord_levelname := LogRecord_levelname r;
     LogRecord_levelno := LogRecord_levelno r;
     LogRecord_created := LogRecord_created r;
     LogRecord_message := LogRecord_message r; LogRecord_asctime := Some a |}.

(** [LogRecord.getMessage]: [msg = str(self.msg)]; [if self.args: msg = msg % self.args]. *)
Definition LogRecord_getMessage (r : LogRecord) : result string :=
  let msg := LogRecord_msg r in
  match LogRecord_args r with
  | [] => Returned msg
  | _ :: _ => percent_tuple (LogRecord_args r) false msg
  end.

(** ** Formatters ([style='%'], no [datefmt]) *)

Record Formatter : Type := { _fmt : string }.

Definition BASIC_FORMAT : string := "%(levelname)s:%(name)s:%(message)s".

(** [Formatter()] with no format: [PercentStyle.default_format]. *)
Definition _defaultFormatter : Formatter := {| _fmt := "%(message)s" |}.

(** [Formatter.formatTime] with [datefmt=None]:
    [s = time.strftime(self.default_time_format, ct)] and then
    [self.default_msec_format % (s, record.msecs)], i.e. ['%s,%03d']. *)
Definition Formatter_formatTime (r : LogRecord) : string :=
  let ct := LogRecord_created r in
  strftime_default ct +:+ "," +:+ zfill 3 (str_nat (msecs ct)).

(** [PercentStyle.usesTime]: [self._fmt.find('%(asctime)') >= 0]. *)
Definition Formatter_usesTime (f : Formatter) : bool :=
  contains "%(asctime)" (_fmt f).

(** [PercentStyle.format]: a [KeyError] of the [%] operator becomes a
    [ValueError]. *)
Definition Formatter_formatMessage (f : Formatter) (r : LogRecord)
    : result string :=
  match percent_mapping (LogRecord_dict r) FLit (_fmt f) with
  | Raised KeyError => Raised ValueError
  | res => res
  end.

(** [Formatter.format] *)
Definition Formatter_format (f : Formatter) (r : LogRecord) : result string :=
  result_bind (LogRecord_getMessage r) (fun m =>
  let r := set_message m r in
  let r := if Formatter_usesTime f
           then set_asctime (Formatter_formatTime r) r else r in
  Formatter_formatMessage f r).

(** ** Streams, handlers, the root logger

    What a stream has received is kept as the list of the [write] calls.
    Text is kept verbatim; the bodies that [traceback] prints depend on the
    interpreter's frames and are kept symbolically. *)

Inductive chunk : Type :=
  | Text (s : string)
  | Traceback (e : exn)                   (* traceback.print_exception(...) *)
  | CallStack                             (* traceback.print_stack(frame), or
                                             the 'Logged from file' line *)
  | MessageReport (msg : string) (args : list string).
                                          (* 'Message: %r\nArguments: %s\n' *)

(** A file object.  [Stream_fault = Some e] is a stream on which [write]
    and [flush] raise [e]: [ValueError] once the file is closed, [OSError]
    when the descriptor underneath is gone. *)
Record Stream : Type := {
  Stream_fault : option exn;
  Stream_written : list chunk
}.

Record Handler : Type := {
  Handler_level : Z;
  Handler_formatter : option Formatter;
  Handler_stream : option nat     (* the file object, [None] for Python's None *)
}.

Record Logger : Type := {
  Logger_level : Z;
  Logger_handlers : list Handler;
  Logger_disabled : bool;
  Logger__cache : gmap Z bool
}.

(** The interpreter state a log call can read or change.  [root] has no
    parent and no filters; [clock] is the sequence of readings that
    [time.time()] will return and [clock_reads] how many were taken. *)
Record World : Type := {
  root : Logger;
  manager_disable : Z;
  raiseExceptions : bool;
  sys_stderr : option nat;
  streams : gmap nat Stream;
  clock : nat -> WallClock;
  clock_reads : nat
}.

Definition set_root (l : Logger) (w : World) : World :=
  {| root := l; manager_disable := manager_disable w;
     raiseExceptions := raiseExceptions w; sys_stderr := sys_stderr w;
     streams := streams w; clock := clock w; clock_reads := clock_reads w |}.

Definition set_streams (ss : gmap nat Stream) (w : World) : World :=
  {| root := root w; manager_disable := manager_disable w;
     raiseExceptions := raiseExceptions w; sys_stderr := sys_stderr w;
     streams := ss; clock := clock w; clock_reads := clock_reads w |}.

Definition tick (w : World) : World :=
  {| root := root w; manager_disable := manager_disable w;
     raiseExceptions := raiseExceptions w; sys_stderr := sys_stderr w;
     streams := streams w; clock := clock w; clock_reads := S (clock_reads w) |}.

Definition set_cache (c : gmap Z bool) (l : Logger) : Logger :=
  {| Logger_level := Logger_level l; Logger_handlers := Logger_handlers l;
     Logger_disabled := Logger_disabled l; Logger__cache := c |}.

(** ** The state-and-exception monad *)

Definition Py (A : Type) : Type := World -> result A * World.

Definition ret {A} (a : A) : Py A := fun w => (Returned a, w).

Definition raise {A} (e : exn) : Py A := fun w => (Raised e, w).

Definition bind {A B} (m : Py A) (k : A -> Py B) : Py B :=
  fun w =>
    match m w with
    | (Returned a, w') => k a w'
    | (Raised e, w') => (Raised e, w')
    end.

(** [try: m  except BaseException as e: h e] *)
Definition try_except {A} (m : Py A) (h : exn -> Py A) : Py A :=
  fun w =>
    match m w with
    | (Returned a, w') => (Returned a, w')
    | (Raised e, w') => h e w'
    end.

Definition lift {A} (r : result A) : Py A := fun w => (r, w).

Definition gets {A} (f : World -> A) : Py A := fun w => (Returned (f w), w).

Definition modify (f : World -> World) : Py unit := fun w => (Returned tt, f w).

Declare Scope py_scope.
Delimit Scope py_scope with py.
Bind Scope py_scope with Py.
Notation "'let*' x := m 'in' k" := (bind m (fun x => k))
  (at level 10, x name, m at level 100, k at level 200) : py_scope.
Notation "m1 >> m2" := (bind m1 (fun _ => m2))
  (at level 100, right associativity) : py_scope.
Local Open Scope py_scope.

(** ** File objects *)

(** [stream.write(c)].  On [None] the attribute lookup fails; an identity
    without an object does not arise and is answered the same way. *)
Definition stream_write (stream : option nat) (c : chunk) : Py unit :=
  fun w =>
    match stream with
    | None => (Raised AttributeError, w)
    | Some sid =>
        match streams w !! sid with
        | None => (Raised AttributeError, w)
        | Some f =>
            match Stream_fault f with
            | Some e => (Raised e, w)
            | None =>
                let f' := {| Stream_fault := None;
                             Stream_written := Stream_written f ++ [c] |} in
                (Returned tt, set_streams (<[sid := f']> (streams w)) w)
            end
        end
    end.

(** [stream.flush()] *)
Definition stream_flush (stream : option nat) : Py unit :=
  fun w =>
    match stream with
    | None => (Raised AttributeError, w)
    | Some sid =>
        match streams w !! sid with
        | None => (Raised AttributeError, w)
        | Some f =>
            match Stream_fault f with
            | Some e => (Raised e, w)
            | None => (Returned tt, w)
            end
        end
    end.

(** ** Handlers *)

(** [Handler.format] *)
Definition Handler_format (h : Handler) (r : LogRecord) : result string :=
  let fmt := match Handler_formatter h with
             | Some f => f
             | None => _defaultFormatter
             end in
  Formatter_format fmt r.

(** [Handler.handleError], entered with [e] as the exception being
    handled.  Only an [OSError] of the report itself is passed over. *)
Definition Handler_handleError (h : Handler) (r : LogRecord) (e : exn)
    : Py unit :=
  let* re := gets raiseExceptions in
  let* err := gets sys_stderr in
  if re && bool_decide (is_Some err) then
    try_except
      (stream_write err (Text ("--- Logging error ---" +:+ LF)) >>
       stream_write err (Traceback e) >>
       stream_write err (Text ("Call stack:" +:+ LF)) >>
       stream_write err CallStack >>
       try_except
         (stream_write err (MessageReport (LogRecord_msg r) (LogRecord_args r)))
         (fun e' =>
            match e' with
            | RecursionError => raise e'
            | _ =>
                if is_Exception e' then
                  stream_write err
                    (Text ("Unable to print the message and arguments" +:+
                           " - possible formatting error." +:+ LF +:+
                           "Use the traceback above to help find the error." +:+
                           LF))
                else raise e'
            end))
      (fun e' =>
         match e' with
         | OSError => ret tt
         | _ => raise e'
         end)
  else ret tt.

(** [StreamHandler.flush]: [if self.stream and hasattr(self.stream, "flush")]. *)
Definition StreamHandler_flush (h : Handler) : Py unit :=
  match Handler_stream h with
  | Some _ => stream_flush (Handler_stream h)
  | None => ret tt
  end.

(** [StreamHandler.terminator] *)
Definition terminator : string := LF.

(** [StreamHandler.emit] *)
Definition StreamHandler_emit (h : Handler) (r : LogRecord) : Py unit :=
  try_except
    (let* msg := lift (Handler_format h r) in
     stream_write (Handler_stream h) (Text (msg +:+ terminator)) >>
     StreamHandler_flush h)
    (fun e =>
       match e with
       | RecursionError => raise e
       | _ => if is_Exception e then Handler_handleError h r e else raise e
       end).

(** [Handler.handle]: the handler has no filters, so [self.filter(record)]
    passes the record; the lock is not modelled. *)
Definition Handler_handle (h : Handler) (r : LogRecord) : Py unit :=
  StreamHandler_emit h r.

(** ** The root logger *)

(** The loop [for hdlr in c.handlers] of [Logger.callHandlers]. *)
Fixpoint call_each (hs : list Handler) (r : LogRecord) : Py unit :=
  match hs with
  | [] => ret tt
  | hdlr :: hs' =>
      (if Handler_level hdlr <=? LogRecord_levelno r
       then Handler_handle hdlr r else ret tt) >>
      call_each hs' r
  end.

(** [lastResort = _StderrHandler(WARNING)], whose stream is whatever
    [sys.stderr] is when it is used. *)
Definition lastResort (w : World) : Handler :=
  {| Handler_level := WARNING; Handler_formatter := None;
     Handler_stream := sys_stderr w |}.

(** [Logger.callHandlers] on the root logger, which has no parent. *)
Definition Logger_callHandlers (r : LogRecord) : Py unit :=
  let* hs := gets (fun w => Logger_handlers (root w)) in
  call_each hs r >>
  if bool_decide (length hs = 0%nat) then
    let* lr := gets lastResort in
    if Handler_level lr <=? LogRecord_levelno r
    then Handler_handle lr r else ret tt
  else ret tt.

(** [Logger.handle] *)
Definition Logger_handle (r : LogRecord) : Py unit :=
  let* disabled := gets (fun w => Logger_disabled (root w)) in
  if negb disabled then Logger_callHandlers r else ret tt.

(** [Logger.getEffectiveLevel] on the root logger. *)
Definition Logger_getEffectiveLevel (w : World) : Z :=
  if Logger_level (root w) =? 0 then NOTSET else Logger_level (root w).

(** [Logger.isEnabledFor] *)
Definition Logger_isEnabledFor (level : Z) : Py bool :=
  fun w =>
    if Logger_disabled (root w) then (Returned false, w)
    else
      match Logger__cache (root w) !! level with
      | Some is_enabled => (Returned is_enabled, w)
      | None =>
          let is_enabled :=
            if level <=? manager_disable w then false
            else Logger_getEffectiveLevel w <=? level in
          (Returned is_enabled,
           set_root (set_cache (<[level := is_enabled]> (Logger__cache (root w)))
                               (root w)) w)
      end.

(** [LogRecord.__init__] through [Logger.makeRecord]: the record is
    stamped with the next clock reading. *)
Definition Logger_makeRecord (level : Z) (msg : string) (args : list string)
    : Py LogRecord :=
  fun w =>
    (Returned {| LogRecord_name := "root"; LogRecord_msg := msg;
                 LogRecord_args := args;
                 LogRecord_levelname := getLevelName level;
                 LogRecord_levelno := level;
                 LogRecord_created := clock w (clock_reads w);
                 LogRecord_message := None; LogRecord_asctime := None |},
     tick w).

(** [Logger._log] *)
Definition Logger__log (level : Z) (msg : string) (args : list string)
    : Py unit :=
  let* record := Logger_makeRecord level msg args in
  Logger_handle record.

(** [Logger.log], [Logger.info], [Logger.error] *)
Definition Logger_log (level : Z) (msg : string) (args : list string)
    : Py unit :=
  let* enabled := Logger_isEnabledFor level in
  if enabled then Logger__log level msg args else ret tt.

Definition Logger_info (msg : string) (args : list string) : Py unit :=
  let* enabled := Logger_isEnabledFor INFO in
  if enabled then Logger__log INFO msg args else ret tt.

Definition Logger_error (msg : string) (args : list string) : Py unit :=
  let* enabled := Logger_isEnabledFor ERROR in
  if enabled then Logger__log ERROR msg args else ret tt.

(** [Logger.setLevel]: sets the level and clears the [isEnabledFor] cache. *)
Definition Logger_setLevel (level : Z) (l : Logger) : Logger :=
  {| Logger_level := level; Logger_handlers := Logger_handlers l;
     Logger_disabled := Logger_disabled l; Logger__cache := ∅ |}.

(** [Logger.addHandler] with a handler object that was just created. *)
Definition Logger_addHandler (hdlr : Handler) (l : Logger) : Logger :=
  {| Logger_level := Logger_level l;
     Logger_handlers := Logger_handlers l ++ [hdlr];
     Logger_disabled := Logger_disabled l; Logger__cache := Logger__cache l |}.

(** ** Module-level functions of [logging] *)

(** [logging.basicConfig(level=..., format=...)].  Neither call site
    passes [force], [handlers], [filename], [stream], [datefmt] or
    [style], so the handler is [StreamHandler(None)], bound to the object
    that [sys.stderr] is now.  Both format strings in use pass
    [PercentStyle.validate]. *)
Definition basicConfig (level : option Z) (format : option string) : Py unit :=
  let* hs := gets (fun w => Logger_handlers (root w)) in
  if bool_decide (length hs = 0%nat) then
    let* stream := gets sys_stderr in
    let fs := default BASIC_FORMAT format in
    let h := {| Handler_level := NOTSET;
                Handler_formatter := Some {| _fmt := fs |};
                Handler_stream := stream |} in
    modify (fun w => set_root (Logger_addHandler h (root w)) w) >>
    match level with
    | Some l => modify (fun w => set_root (Logger_setLevel l (root w)) w)
    | None => ret tt
    end
  else ret tt.

(** [logging.info], [logging.error], [logging.log] *)
Definition logging_info (msg : string) (args : list string) : Py unit :=
  let* hs := gets (fun w => Logger_handlers (root w)) in
  (if bool_decide (length hs = 0%nat) then basicConfig None None else ret tt) >>
  Logger_info msg args.

Definition logging_error (msg : string) (args : list string) : Py unit :=
  let* hs := gets (fun w => Logger_handlers (root w)) in
  (if bool_decide (length hs = 0%nat) then basicConfig None None else ret tt) >>
  Logger_error msg args.

Definition logging_log (level : Z) (msg : string) (args : list string)
    : Py unit :=
  let* hs := gets (fun w => Logger_handlers (root w)) in
  (if bool_decide (length hs = 0%nat) then basicConfig None None else ret tt) >>
  Logger_log level msg args.

(** ** logging_utils.py *)

Definition FORMAT : string := "%(asctime)s - %(levelname)s - %(message)s".

(** [logging.basicConfig(level=logging.INFO, format=...)], line 6. *)
Definition configure : Py unit := basicConfig (Some INFO) (Some FORMAT).

Definition log_info (message : string) : Py unit := logging_info message [].

Definition log_error (message : string) : Py unit := logging_error message [].

(** The module body, executed with [__name__] bound as given. *)
Definition module_body (__name__ : string) : Py unit :=
  configure >>
  if String.eqb __name__ "__main__" then
    log_info "This is an info message." >>
    log_error "This is an error message."
  else ret tt.

(** The state of [logging] and of the standard streams in a process that
    has just started: root logger at [WARNING] without handlers, file
    objects 1 and 2 for [sys.stdout] and [sys.stderr]. *)
Definition fresh_process (clk : nat -> WallClock) : World :=
  {| root := {| Logger_level := WARNING; Logger_handlers := [];
                Logger_disabled := false; Logger__cache := ∅ |};
     manager_disable := 0;
     raiseExceptions := true;
     sys_stderr := Some 2%nat;
     streams := <[1%nat := {| Stream_fault := None; Stream_written := [] |}]>
                (<[2%nat := {| Stream_fault := None; Stream_written := [] |}]> ∅);
     clock := clk;
     clock_reads := 0 |}.

(** [python logging_utils.py]: exit status 0 when the module body runs to
    its end, 1 when an exception leaves it.  [logging.shutdown], which
    runs at exit, flushes and closes the handlers and writes nothing. *)
Definition exit_status (r : result unit) : Z :=
  match r with
  | Returned _ => 0
  | Raised _ => 1
  end.

Definition run_main (w : World) : Z * World :=
  let (r, w') := module_body "__main__" w in (exit_status r, w').

(** What file object [sid] has received. *)
Definition output (sid : nat) (w : World) : list chunk :=
  match streams w !! sid with
  | Some f => Stream_written f
  | None => []
  end.

(** ** Reading a line back

    A consumer of the log splits a line with [line.split(' - ', 2)]. *)

Fixpoint strip_prefix (p s : string) : option string :=
  match p, s with
  | "", _ => Some s
  | String a p', String b s' =>
      if Ascii.eqb a b then strip_prefix p' s' else None
  | String _ _, "" => None
  end.

(** [s.partition(sep)] when [sep] occurs in [s]: the text before its first
    occurrence and the text after it. *)
Fixpoint str_partition (sep s : string) : option (string * string) :=
  match strip_prefix sep s with
  | Some rest => Some ("", rest)
  | None =>
      match s with
      | "" => None
      | String c s' =>
          match str_partition sep s' with
          | Some (a, b) => Some (String c a, b)
          | None => None
          end
      end
  end.

(** [s.split(sep, maxsplit)] *)
Fixpoint str_split (sep : string) (maxsplit : nat) (s : string) : list string :=
  match maxsplit with
  | O => [s]
  | S k =>
      match str_partition sep s with
      | Some (a, b) => a :: str_split sep k b
      | None => [s]
      end
  end.

(** ** Vocabulary of the statements *)

(** The timestamp field of a record created at [ct]. *)
Definition asctime_of (ct : WallClock) : string :=
  strftime_default ct +:+ "," +:+ zfill 3 (str_nat (msecs ct)).

(** The line [<timestamp> - <LEVELNAME> - <message>]. *)
Definition line_of (ct : WallClock) (level : Z) (m : string) : string :=
  asctime_of ct +:+ " - " +:+ getLevelName level +:+ " - " +:+ m.

(** The handler that line 6 of the module installs on the root logger. *)
Definition facade_handler (sid : nat) : Handler :=
  {| Handler_level := NOTSET;
     Handler_formatter := Some {| _fmt := FORMAT |};
     Handler_stream := Some sid |}.

(** What [Logger.isEnabledFor] computes when the cache has no entry. *)
Definition enabled_for (w : World) (level : Z) : bool :=
  if level <=? manager_disable w then false
  else Logger_getEffectiveLevel w <=? level.

(** The logger configuration of the spec: the severity threshold and the
    output format template (with the sink it is attached to). *)
Definition configuration (w : World) : Z * list Handler :=
  (Logger_level (root w), Logger_handlers (root w)).

(** The state the module leaves behind once it is loaded: threshold
    [INFO], one handler with the module's template writing to file object
    [sid], logging not disabled, and a cache that agrees with the levels. *)
Record configured (sid : nat) (w : World) : Prop := {
  cfg_level : Logger_level (root w) = INFO;
  cfg_handlers : Logger_handlers (root w) = [facade_handler sid];
  cfg_enabled : Logger_disabled (root w) = false;
  cfg_disable : manager_disable w < INFO;
  cfg_cache : forall l b, Logger__cache (root w) !! l = Some b -> b = enabled_for w l
}.

(** Normal conditions: the sink exists and accepts writes. *)
Definition writable (sid : nat) (w : World) : Prop :=
  exists f, streams w !! sid = Some f /\ Stream_fault f = None.

(** The sink after one more line. *)
Definition with_line (f : Stream) (line : string) : Stream :=
  {| Stream_fault := None;
     Stream_written := Stream_written f ++ [Text (line +:+ LF)] |}.

(** A sequence of calls [logging.log(level, msg)]. *)
Fixpoint run_calls (calls : list (Z * string)) : Py unit :=
  match calls with
  | [] => ret tt
  | (level, msg) :: calls' => logging_log level msg [] >> run_calls calls'
  end.

(** The configuration step run [n] times in a row. *)
Fixpoint configure_times (n : nat) : Py unit :=
  match n with
  | O => ret tt
  | S n' => configure >> configure_times n'
  end.

(** The world after a log call differs from the one before in the cache of
    [isEnabledFor], the clock position and the streams only. *)
Definition after_call (c : gmap Z bool) (ss : gmap nat Stream) (n : nat)
    (w : World) : World :=
  {| root := set_cache c (root w); manager_disable := manager_disable w;
     raiseExceptions := raiseExceptions w; sys_stderr := sys_stderr w;
     streams := ss; clock := clock w; clock_reads := n |}.

(** Every entry of cache [c] is what [isEnabledFor] would compute in [w]. *)
Definition cache_agrees (w : World) (c : gmap Z bool) : Prop :=
  forall l b, c !! l = Some b -> b = enabled_for w l.

(** [c.isdigit()] on ASCII. *)
Definition is_digit (c : ascii) : bool :=
  match c with
  | "0" | "1" | "2" | "3" | "4" | "5" | "6" | "7" | "8" | "9" => true
  | _ => false
  end%char.

(** Every character of [s] is a digit. *)
Fixpoint all_digits (s : string) : bool :=
  match s with
  | "" => true
  | String c s' => is_digit c && all_digits s'
  end.

(** No blank is followed by a dash, and the text does not end in a blank:
    the separator [" - "] cannot start inside such a text, even when the
    text is followed by the separator itself. *)
Fixpoint dash_safe (s : string) : bool :=
  match s with
  | "" => true
  | String c s' =>
      (negb (Ascii.eqb c " ") ||
       match s' with
       | String d _ => negb (Ascii.eqb d "-")
       | "" => false
       end) && dash_safe s'
  end.

(** A fresh process after line 6 of the module has run. *)
Definition loaded (clk : nat -> WallClock) : World :=
  snd (configure (fresh_process clk)).

(** A clock for the examples: 2026-11-04 00:02:55,067 at every reading. *)
Definition sample_clock : nat -> WallClock :=
  fun _ => {| tm_year := 2026; tm_mon := 11; tm_mday := 4; tm_hour := 0;
              tm_min := 2; tm_sec := 55; msecs := 67 |}.

(** The record that [Logger.makeRecord] builds in world [w]. *)
Definition record_of (w : World) (level : Z) (m : string) : LogRecord :=
  {| LogRecord_name := "root"; LogRecord_msg := m; LogRecord_args := [];
     LogRecord_levelname := getLevelName level; LogRecord_levelno := level;
     LogRecord_created := clock w (clock_reads w);
     LogRecord_message := None; LogRecord_asctime := None |}.

(** What [Handler.handleError] prints about exception [e]. *)
Definition error_report (r : LogRecord) (e : exn) : list chunk :=
  [ Text ("--- Logging error ---" +:+ LF); Traceback e;
    Text ("Call stack:" +:+ LF); CallStack;
    MessageReport (LogRecord_msg r) (LogRecord_args r) ].

(** The report of [handleError] does not itself fail, or fails with the
    one error that [handleError] passes over. *)
Definition report_absorbed (w : World) : Prop :=
  raiseExceptions w = false \/ sys_stderr w = None \/
  exists s g, sys_stderr w = Some s /\ streams w !! s = Some g /\
              (Stream_fault g = None \/ Stream_fault g = Some OSError).

(** The sink accepts the write, or refuses it with an ordinary exception
    and the report is absorbed. *)
Definition failure_absorbed (sid : nat) (w : World) : Prop :=
  writable sid w \/
  exists f e, streams w !! sid = Some f /\ Stream_fault f = Some e /\
              is_Exception e = true /\ e <> RecursionError /\ report_absorbed w.

(** A computation that returns or raises with the configuration it found. *)
Definition keeps_configuration {A} (m : Py A) : Prop :=
  forall w, configuration (snd (m w)) = configuration w.

(** A sequence of calls of the two functions of the module. *)
Inductive facade_call : Type :=
  | CallInfo (message : string)
  | CallError (message : string).

(** The calls in order; an exception that leaves one of them ends the run. *)
Fixpoint run_facade (calls : list facade_call) : Py unit :=
  match calls with
  | [] => ret tt
  | CallInfo m :: calls' => log_info m >> run_facade calls'
  | CallError m :: calls' => log_error m >> run_facade calls'
  end.

(** The module is loaded, and the interpreter's [sys.stderr] is closed
    afterwards: writing to file object 2 raises [ValueError]. *)
Definition stderr_closed : World :=
  set_streams (<[2%nat := {| Stream_fault := Some ValueError;
                             Stream_written := [] |}]>
                 (streams (loaded sample_clock)))
              (loaded sample_clock).

(** The module is loaded and the descriptor under [sys.stderr] is gone:
    writing to file object 2 raises [OSError]. *)
Definition stderr_broken : World :=
  set_streams (<[2%nat := {| Stream_fault := Some OSError;
                             Stream_written := [] |}]>
                 (streams (loaded sample_clock)))
              (loaded sample_clock).

(** ** Vocabulary of the further properties *)

Definition call_level (c : facade_call) : Z :=
  match c with
  | CallInfo _ => INFO
  | CallError _ => ERROR
  end.

Definition call_message (c : facade_call) : string :=
  match c with
  | CallInfo m => m
  | CallError m => m
  end.

(** The writes that a sequence of facade calls makes when the first one
    takes clock reading number [n]. *)
Fixpoint lines_of_calls (clk : nat -> WallClock) (n : nat)
    (calls : list facade_call) : list chunk :=
  match calls with
  | [] => []
  | c :: calls' =>
      Text (line_of (clk n) (call_level c) (call_message c) +:+ LF)
      :: lines_of_calls clk (S n) calls'
  end.

(** [Logger.isEnabledFor(level)] answers no: the logger is disabled,
    [logging.disable] covers the level, or the effective level is above it. *)
Definition silenced (w : World) (level : Z) : Prop :=
  Logger_disabled (root w) = true \/ level <= manager_disable w \/
  level < Logger_getEffectiveLevel w.

(** A process in which the host program has already called
    [logging.basicConfig()] before it imports the module. *)
Definition host_configured (clk : nat -> WallClock) : World :=
  snd (basicConfig None None (fresh_process clk)).

(** A process that starts with a [sys.stderr] whose [write] raises [e]. *)
Definition faulty_process (clk : nat -> WallClock) (e : exn) : World :=
  {| root := {| Logger_level := WARNING; Logger_handlers := [];
                Logger_disabled := false; Logger__cache := ∅ |};
     manager_disable := 0;
     raiseExceptions := true;
     sys_stderr := Some 2%nat;
     streams := <[1%nat := {| Stream_fault := None; Stream_written := [] |}]>
                (<[2%nat := {| Stream_fault := Some e; Stream_written := [] |}]> ∅);
     clock := clk;
     clock_reads := 0 |}.

(** The assignment [sys.stderr = s] by the host program. *)
Definition rebind_stderr (s : option nat) (w : World) : World :=
  {| root := root w; manager_disable := manager_disable w;
     raiseExceptions := raiseExceptions w; sys_stderr := s;
     streams := streams w; clock := clock w; clock_reads := clock_reads w |}.

(** A reading whose fields fill the columns of [YYYY-MM-DD HH:MM:SS,mmm]. *)
Definition fits_columns (ct : WallClock) : Prop :=
  1000 <= Z.of_nat (tm_year ct) <= 9999 /\ Z.of_nat (tm_mon ct) < 100 /\
  Z.of_nat (tm_mday ct) < 100 /\ Z.of_nat (tm_hour ct) < 100 /\
  Z.of_nat (tm_min ct) < 100 /\ Z.of_nat (tm_sec ct) < 100 /\
  Z.of_nat (msecs ct) < 1000.

(** * Properties *)

(** ** Text *)

Lemma str_app_nil_r (a : string) : a +:+ "" = a.
Proof.
  induction a as [|x a IH]; [reflexivity|].
  change (String x (a +:+ "") = String x a). now f_equal.
Qed.

Lemma str_app_assoc (a b c : string) : (a +:+ b) +:+ c = a +:+ (b +:+ c).
Proof.
  induction a as [|x a IH]; [reflexivity|].
  change (String x ((a +:+ b) +:+ c) = String x (a +:+ (b +:+ c))). now f_equal.
Qed.

Lemma percent_mapping_FORMAT (values : gmap string string) (a l m : string) :
  values !! "asctime" = Some a ->
  values !! "levelname" = Some l ->
  values !! "message" = Some m ->
  percent_mapping values FLit FORMAT
  = Returned (a +:+ " - " +:+ l +:+ " - " +:+ m).
Proof.
  intros Ha Hl Hm. unfold FORMAT.
  cbn -[lookup]. cbv [snoc String.append].
  rewrite Ha, Hl, Hm. cbn. repeat f_equal. exact (str_app_nil_r m).
Qed.

(** ** One record through the formatter and the handler *)

Lemma Formatter_format_FORMAT (r : LogRecord) :
  LogRecord_args r = [] ->
  Formatter_format {| _fmt := FORMAT |} r
  = Returned (asctime_of (LogRecord_created r) +:+ " - " +:+
              LogRecord_levelname r +:+ " - " +:+ LogRecord_msg r).
Proof.
  intros Hargs. unfold Formatter_format, LogRecord_getMessage.
  rewrite Hargs. cbn [result_bind].
  change (Formatter_usesTime {| _fmt := FORMAT |}) with true. cbv iota.
  unfold Formatter_formatMessage. cbn [_fmt].
  rewrite (percent_mapping_FORMAT _
             (asctime_of (LogRecord_created r)) (LogRecord_levelname r)
             (LogRecord_msg r)); [reflexivity | | |];
    unfold LogRecord_dict; cbn -[insert lookup];
    repeat (rewrite lookup_insert_ne by discriminate);
    apply lookup_insert_eq.
Qed.

Lemma StreamHandler_emit_ok (sid : nat) (r : LogRecord) (w : World) (f : Stream) :
  LogRecord_args r = [] ->
  streams w !! sid = Some f ->
  Stream_fault f = None ->
  StreamHandler_emit (facade_handler sid) r w
  = (Returned tt,
     set_streams
       (<[sid := with_line f (asctime_of (LogRecord_created r) +:+ " - " +:+
                              LogRecord_levelname r +:+ " - " +:+ LogRecord_msg r)]>
          (streams w)) w).
Proof.
  intros Hargs Hf Hok.
  unfold StreamHandler_emit, try_except, bind, lift, Handler_format.
  cbn [facade_handler Handler_formatter Handler_stream].
  rewrite (Formatter_format_FORMAT r Hargs).
  unfold stream_write. rewrite Hf, Hok.
  unfold StreamHandler_flush, stream_flush.
  cbn [facade_handler Handler_stream set_streams streams].
  rewrite lookup_insert_eq. reflexivity.
Qed.

(** ** The level check and its cache *)

Lemma after_call_id (w : World) :
  after_call (Logger__cache (root w)) (streams w) (clock_reads w) w = w.
Proof. destruct w as [[] ? ? ? ? ? ?]. reflexivity. Qed.

Lemma configured_after_call sid w c ss n :
  configured sid w -> cache_agrees w c -> configured sid (after_call c ss n w).
Proof.
  intros [H1 H2 H3 H4 H5] Hc. split; cbn; try assumption.
Qed.

Lemma enabled_for_above sid w level :
  configured sid w -> INFO <= level -> enabled_for w level = true.
Proof.
  intros [H1 _ _ H4 _] Hl. unfold enabled_for, Logger_getEffectiveLevel.
  rewrite H1. unfold INFO in *. cbn.
  destruct (Z.leb_spec level (manager_disable w)); [lia|].
  now apply Z.leb_le.
Qed.

Lemma enabled_for_below sid w level :
  configured sid w -> level < INFO -> enabled_for w level = false.
Proof.
  intros [H1 _ _ H4 _] Hl. unfold enabled_for, Logger_getEffectiveLevel.
  rewrite H1. unfold INFO in *. cbn.
  destruct (Z.leb_spec level (manager_disable w)); [reflexivity|].
  apply Z.leb_gt. lia.
Qed.

Lemma Logger_isEnabledFor_spec sid w level :
  configured sid w ->
  exists c, cache_agrees w c /\
    Logger_isEnabledFor level w
    = (Returned (enabled_for w level), after_call c (streams w) (clock_reads w) w).
Proof.
  intros Hw. unfold Logger_isEnabledFor. rewrite (cfg_enabled _ _ Hw).
  destruct (Logger__cache (root w) !! level) as [b|] eqn:Hc.
  - exists (Logger__cache (root w)). split; [exact (cfg_cache _ _ Hw)|].
    rewrite after_call_id. now rewrite (cfg_cache _ _ Hw _ _ Hc).
  - exists (<[level := enabled_for w level]> (Logger__cache (root w))). split.
    + intros l b. rewrite lookup_insert. case_decide as Hl.
      * subst l. intros [= <-]. reflexivity.
      * apply (cfg_cache _ _ Hw).
    + reflexivity.
Qed.

(** ** A call at a level that passes, on a sink that accepts writes *)

Lemma Logger__log_ok sid w f level m :
  Logger_handlers (root w) = [facade_handler sid] ->
  Logger_disabled (root w) = false ->
  NOTSET <= level ->
  streams w !! sid = Some f ->
  Stream_fault f = None ->
  Logger__log level m [] w
  = (Returned tt,
     after_call (Logger__cache (root w))
       (<[sid := with_line f (line_of (clock w (clock_reads w)) level m)]> (streams w))
       (S (clock_reads w)) w).
Proof.
  intros Hh Hd Hl Hf Hok.
  unfold Logger__log, Logger_makeRecord, bind at 1.
  unfold Logger_handle, bind at 1, gets at 1. cbn [tick root].
  rewrite Hd. cbn [negb].
  unfold Logger_callHandlers, bind at 1, gets at 1. cbn [tick root].
  rewrite Hh. cbn [call_each facade_handler Handler_level LogRecord_levelno].
  apply Z.leb_le in Hl. rewrite Hl.
  unfold bind, Handler_handle.
  erewrite StreamHandler_emit_ok; [| reflexivity | cbn [tick streams]; exact Hf | exact Hok].
  cbn. destruct w as [[] ? ? ? ? ? ?]. reflexivity.
Qed.

Lemma Logger_log_emits sid w f level m :
  configured sid w ->
  streams w !! sid = Some f ->
  Stream_fault f = None ->
  INFO <= level ->
  exists c, cache_agrees w c /\
    Logger_log level m [] w
    = (Returned tt,
       after_call c
         (<[sid := with_line f (line_of (clock w (clock_reads w)) level m)]> (streams w))
         (S (clock_reads w)) w).
Proof.
  intros Hw Hf Hok Hl.
  destruct (Logger_isEnabledFor_spec sid w level Hw) as (c & Hc & He).
  exists c. split; [exact Hc|].
  unfold Logger_log, bind. rewrite He, (enabled_for_above sid w level Hw Hl).
  pose proof (configured_after_call sid w c (streams w) (clock_reads w) Hw Hc) as Hw'.
  rewrite (Logger__log_ok sid _ f level m);
    [ reflexivity | apply (cfg_handlers _ _ Hw') | apply (cfg_enabled _ _ Hw')
    | unfold NOTSET, INFO in *; lia | exact Hf | exact Hok ].
Qed.

(** ** A call at a level below the threshold *)

Lemma Logger_log_dropped sid w level m args :
  configured sid w ->
  level < INFO ->
  exists c, cache_agrees w c /\
    Logger_log level m args w
    = (Returned tt, after_call c (streams w) (clock_reads w) w).
Proof.
  intros Hw Hl.
  destruct (Logger_isEnabledFor_spec sid w level Hw) as (c & Hc & He).
  exists c. split; [exact Hc|].
  unfold Logger_log, bind. now rewrite He, (enabled_for_below sid w level Hw Hl).
Qed.

(** With a handler installed the module-level functions go straight to
    the root logger. *)
Lemma logging_log_configured sid w level m args :
  configured sid w -> logging_log level m args w = Logger_log level m args w.
Proof.
  intros Hw. unfold logging_log, bind at 1, gets.
  rewrite (cfg_handlers _ _ Hw). cbn. reflexivity.
Qed.

Lemma log_info_as_log sid w m :
  configured sid w -> log_info m w = Logger_log INFO m [] w.
Proof.
  intros Hw. unfold log_info, logging_info, bind at 1, gets.
  rewrite (cfg_handlers _ _ Hw). cbn. reflexivity.
Qed.

Lemma log_error_as_log sid w m :
  configured sid w -> log_error m w = Logger_log ERROR m [] w.
Proof.
  intros Hw. unfold log_error, logging_error, bind at 1, gets.
  rewrite (cfg_handlers _ _ Hw). cbn. reflexivity.
Qed.

(** ** Where the separator can occur *)

Lemma all_digits_uint (d : uint) : all_digits (NilEmpty.string_of_uint d) = true.
Proof. induction d; cbn; auto. Qed.

Lemma all_digits_str_nat (n : nat) : all_digits (str_nat n) = true.
Proof.
  unfold str_nat, NilZero.string_of_uint.
  destruct (Nat.to_uint n) eqn:E; try reflexivity; rewrite <- E at 1;
    rewrite E; apply all_digits_uint.
Qed.

Lemma all_digits_app (a b : string) :
  all_digits a = true -> all_digits b = true -> all_digits (a +:+ b) = true.
Proof.
  induction a as [|c a IH]; [easy|].
  change (String c a +:+ b) with (String c (a +:+ b)). cbn.
  intros [Hc Ha]%andb_prop Hb. rewrite Hc, IH by assumption. reflexivity.
Qed.

Lemma all_digits_zeros (k : nat) : all_digits (zeros k) = true.
Proof. induction k; cbn; auto. Qed.

Lemma all_digits_zfill (k : nat) (s : string) :
  all_digits s = true -> all_digits (zfill k s) = true.
Proof. intros Hs. apply all_digits_app; [apply all_digits_zeros | exact Hs]. Qed.

Lemma str_nat_nonempty (n : nat) : exists c t, str_nat n = String c t.
Proof.
  unfold str_nat, NilZero.string_of_uint.
  destruct (Nat.to_uint n); cbn; eauto.
Qed.

Lemma zfill_nonempty (k n : nat) : exists c t, zfill k (str_nat n) = String c t.
Proof.
  destruct (str_nat_nonempty n) as (c & t & E). unfold zfill. rewrite E.
  destruct (zeros (k - String.length (String c t))); cbn; eauto.
Qed.

Lemma is_digit_not_blank (c : ascii) : is_digit c = true -> Ascii.eqb c " " = false.
Proof.
  destruct c as [[|] [|] [|] [|] [|] [|] [|] [|]]; cbn; congruence.
Qed.

Lemma is_digit_not_dash (c : ascii) : is_digit c = true -> Ascii.eqb c "-" = false.
Proof.
  destruct c as [[|] [|] [|] [|] [|] [|] [|] [|]]; cbn; congruence.
Qed.

(** Digits in front of a safe text keep it safe. *)
Lemma dash_safe_digits_app (a b : string) :
  all_digits a = true -> dash_safe b = true -> dash_safe (a +:+ b) = true.
Proof.
  induction a as [|c a IH]; [easy|].
  change (String c a +:+ b) with (String c (a +:+ b)).
  intros [Hc Ha]%andb_prop Hb. cbn [dash_safe].
  rewrite (is_digit_not_blank c Hc), IH by assumption. reflexivity.
Qed.

(** So does a punctuation mark other than the blank. *)
Lemma dash_safe_mark (c : ascii) (b : string) :
  Ascii.eqb c " " = false -> dash_safe b = true -> dash_safe (String c b) = true.
Proof. intros Hc Hb. cbn [dash_safe]. rewrite Hc, Hb. reflexivity. Qed.

(** And a blank, when a digit follows. *)
Lemma dash_safe_blank (b : string) :
  (exists c t, b = String c t /\ is_digit c = true) ->
  dash_safe b = true -> dash_safe (String " " b) = true.
Proof.
  intros (c & t & -> & Hc) Hb. cbn [dash_safe] in *.
  rewrite (is_digit_not_dash c Hc). cbn. exact Hb.
Qed.

Lemma zfill_head_digit (k n : nat) (rest : string) :
  exists c t, zfill k (str_nat n) +:+ rest = String c t /\ is_digit c = true.
Proof.
  destruct (zfill_nonempty k n) as (c & t & E).
  pose proof (all_digits_zfill k _ (all_digits_str_nat n)) as Hd.
  rewrite E in *. cbn in Hd. apply andb_prop in Hd as [Hc _].
  exists c, (t +:+ rest). split; [reflexivity | exact Hc].
Qed.

Lemma dash_safe_asctime (ct : WallClock) : dash_safe (asctime_of ct) = true.
Proof.
  unfold asctime_of, strftime_default.
  repeat rewrite str_app_assoc.
  apply dash_safe_digits_app; [apply all_digits_str_nat|].
  apply dash_safe_mark; [reflexivity|].
  apply dash_safe_digits_app; [apply all_digits_zfill, all_digits_str_nat|].
  apply dash_safe_mark; [reflexivity|].
  apply dash_safe_digits_app; [apply all_digits_zfill, all_digits_str_nat|].
  apply dash_safe_blank; [apply zfill_head_digit|].
  apply dash_safe_digits_app; [apply all_digits_zfill, all_digits_str_nat|].
  apply dash_safe_mark; [reflexivity|].
  apply dash_safe_digits_app; [apply all_digits_zfill, all_digits_str_nat|].
  apply dash_safe_mark; [reflexivity|].
  apply dash_safe_digits_app; [apply all_digits_zfill, all_digits_str_nat|].
  apply dash_safe_mark; [reflexivity|].
  rewrite <- (str_app_nil_r (zfill 3 _)).
  apply dash_safe_digits_app; [apply all_digits_zfill, all_digits_str_nat|].
  reflexivity.
Qed.

(** The first occurrence of the separator after a safe text is the one
    that follows it. *)
Lemma str_partition_dash_safe (ts rest : string) :
  dash_safe ts = true ->
  str_partition " - " (ts +:+ " - " +:+ rest) = Some (ts, rest).
Proof.
  induction ts as [|c ts IH]; [reflexivity|].
  change (String c ts +:+ " - " +:+ rest) with (String c (ts +:+ " - " +:+ rest)).
  cbn [dash_safe]. intros [Hc Hts]%andb_prop.
  cbn [str_partition]. rewrite (IH Hts).
  replace (strip_prefix " - " (String c (ts +:+ " - " +:+ rest))) with (@None string);
    [reflexivity|].
  cbn [strip_prefix].
  destruct (Ascii.eqb_spec " " c) as [<- | Hne].
  - destruct ts as [|d ts']; [discriminate|].
    change (String d ts' +:+ " - " +:+ rest) with (String d (ts' +:+ " - " +:+ rest)).
    cbn [strip_prefix]. cbn in Hc. rewrite Ascii.eqb_sym.
    destruct (Ascii.eqb d "-"); [discriminate | reflexivity].
  - reflexivity.
Qed.

Lemma str_split_line (ct : WallClock) (level : Z) (m : string) :
  dash_safe (getLevelName level) = true ->
  str_split " - " 2 (line_of ct level m) = [asctime_of ct; getLevelName level; m].
Proof.
  intros Hl. unfold line_of. cbn [str_split].
  rewrite (str_partition_dash_safe _ _ (dash_safe_asctime ct)).
  rewrite (str_partition_dash_safe _ _ Hl). reflexivity.
Qed.

(** ** Loading the module *)

Lemma configure_first sid w :
  Logger_handlers (root w) = [] ->
  Logger_disabled (root w) = false ->
  manager_disable w < INFO ->
  sys_stderr w = Some sid ->
  exists w', configure w = (Returned tt, w') /\ configured sid w' /\
             streams w' = streams w /\ clock_reads w' = clock_reads w /\
             clock w' = clock w.
Proof.
  destruct w as [[lv hs dis ca] md re err ss ck n]. cbn.
  intros -> -> Hm ->.
  eexists. split; [reflexivity|].
  split; [|auto]. split; cbn; try assumption; try reflexivity.
  intros l b Hl. rewrite lookup_empty in Hl. discriminate.
Qed.

Lemma configure_again sid w :
  configured sid w -> configure w = (Returned tt, w).
Proof.
  intros Hw. unfold configure, basicConfig, bind, gets.
  rewrite (cfg_handlers _ _ Hw). reflexivity.
Qed.

Lemma loaded_configured clk : configured 2 (loaded clk).
Proof.
  split; try reflexivity.
  intros l b Hl. cbn in Hl. discriminate.
Qed.

Lemma loaded_writable clk : writable 2 (loaded clk).
Proof. eexists. split; reflexivity. Qed.

(** ** What one accepted call does *)

Lemma output_insert sid f ss c n w :
  output sid (after_call c (<[sid := f]> ss) n w) = Stream_written f.
Proof. unfold output. cbn. now rewrite lookup_insert_eq. Qed.

Lemma Logger_log_accepts sid w level m :
  configured sid w -> writable sid w -> INFO <= level ->
  exists w',
    Logger_log level m [] w = (Returned tt, w') /\
    output sid w'
    = output sid w ++ [Text (line_of (clock w (clock_reads w)) level m +:+ LF)] /\
    (forall sid', sid' <> sid -> streams w' !! sid' = streams w !! sid') /\
    configured sid w' /\ writable sid w' /\
    clock_reads w' = S (clock_reads w) /\ clock w' = clock w.
Proof.
  intros Hw (f & Hf & Hok) Hl.
  destruct (Logger_log_emits sid w f level m Hw Hf Hok Hl) as (c & Hc & E).
  eexists. split; [exact E|]. repeat split.
  - rewrite output_insert. unfold output. rewrite Hf. reflexivity.
  - intros sid' Hne. cbn. now rewrite lookup_insert_ne.
  - apply (cfg_level _ _ Hw).
  - apply (cfg_handlers _ _ Hw).
  - apply (cfg_enabled _ _ Hw).
  - apply (cfg_disable _ _ Hw).
  - exact Hc.
  - eexists. cbn. rewrite lookup_insert_eq. split; reflexivity.
Qed.

(** ** When the sink refuses the write *)

Lemma stream_write_ok s g c w :
  streams w !! s = Some g -> Stream_fault g = None ->
  stream_write (Some s) c w
  = (Returned tt,
     set_streams (<[s := {| Stream_fault := None;
                            Stream_written := Stream_written g ++ [c] |}]>
                    (streams w)) w).
Proof. intros Hg Hok. unfold stream_write. now rewrite Hg, Hok. Qed.

Lemma stream_write_fault s g e c w :
  streams w !! s = Some g -> Stream_fault g = Some e ->
  stream_write (Some s) c w = (Raised e, w).
Proof. intros Hg He. unfold stream_write. now rewrite Hg, He. Qed.

Lemma Handler_handleError_quiet h r e w :
  raiseExceptions w = false \/ sys_stderr w = None ->
  Handler_handleError h r e w = (Returned tt, w).
Proof.
  intros H. unfold Handler_handleError, bind, gets.
  destruct H as [-> | ->]; [reflexivity|].
  destruct (raiseExceptions w); reflexivity.
Qed.

Lemma Handler_handleError_fault h r e w s g e' :
  raiseExceptions w = true -> sys_stderr w = Some s ->
  streams w !! s = Some g -> Stream_fault g = Some e' ->
  Handler_handleError h r e w
  = (match e' with OSError => Returned tt | _ => Raised e' end, w).
Proof.
  intros Hre Herr Hg He'. unfold Handler_handleError, bind at 1 2, gets.
  rewrite Hre, Herr. cbn [andb bool_decide decide_rel].
  rewrite bool_decide_eq_true_2 by (now eexists).
  unfold try_except at 1, bind at 1.
  rewrite (stream_write_fault s g e' _ _ Hg He').
  destruct e'; reflexivity.
Qed.

Lemma Handler_handleError_report h r e w s g :
  raiseExceptions w = true -> sys_stderr w = Some s ->
  streams w !! s = Some g -> Stream_fault g = None ->
  exists w', Handler_handleError h r e w = (Returned tt, w') /\
    output s w' = output s w ++ error_report r e /\
    (forall s', s' <> s -> streams w' !! s' = streams w !! s').
Proof.
  intros Hre Herr Hg Hok. unfold Handler_handleError, bind at 1 2, gets.
  rewrite Hre, Herr. cbn [andb].
  rewrite bool_decide_eq_true_2 by (now eexists).
  unfold try_except, bind.
  rewrite (stream_write_ok s g _ _ Hg Hok).
  repeat (erewrite stream_write_ok;
          [| cbn [set_streams streams]; apply lookup_insert_eq | reflexivity]).
  eexists. split; [reflexivity|]. split.
  - unfold output. cbn [set_streams streams Stream_written].
    rewrite lookup_insert_eq, Hg. cbn [Stream_written].
    unfold error_report. now rewrite <- !app_assoc.
  - intros s' Hne. cbn [set_streams streams].
    now rewrite !lookup_insert_ne by congruence.
Qed.

Lemma bind_ret_tt (m : Py unit) (w : World) :
  bind m (fun _ => ret tt) w = m w.
Proof. unfold bind, ret. destruct (m w) as [[[]|e] w']; reflexivity. Qed.

Lemma StreamHandler_emit_fault sid r w f e :
  LogRecord_args r = [] ->
  streams w !! sid = Some f -> Stream_fault f = Some e ->
  StreamHandler_emit (facade_handler sid) r w
  = match e with
    | RecursionError => (Raised e, w)
    | _ => if is_Exception e
           then Handler_handleError (facade_handler sid) r e w
           else (Raised e, w)
    end.
Proof.
  intros Hargs Hf He.
  unfold StreamHandler_emit, try_except, bind, lift, Handler_format.
  cbn [facade_handler Handler_formatter Handler_stream].
  rewrite (Formatter_format_FORMAT r Hargs).
  rewrite (stream_write_fault sid f e _ _ Hf He).
  destruct e; reflexivity.
Qed.

Lemma Logger__log_as_emit sid w level m :
  Logger_handlers (root w) = [facade_handler sid] ->
  Logger_disabled (root w) = false ->
  NOTSET <= level ->
  Logger__log level m [] w
  = StreamHandler_emit (facade_handler sid) (record_of w level m) (tick w).
Proof.
  intros Hh Hd Hl.
  unfold Logger__log, Logger_makeRecord, bind at 1.
  unfold Logger_handle, bind at 1, gets at 1. cbn [tick root].
  rewrite Hd. cbn [negb].
  unfold Logger_callHandlers, bind at 1, gets at 1. cbn [tick root].
  rewrite Hh. cbn [call_each facade_handler Handler_level LogRecord_levelno].
  apply Z.leb_le in Hl. rewrite Hl.
  change (bool_decide (length [facade_handler sid] = 0%nat)) with false.
  cbv iota. unfold Handler_handle.
  rewrite bind_ret_tt. rewrite bind_ret_tt. reflexivity.
Qed.

Lemma Logger_log_as_emit sid w level m :
  configured sid w -> INFO <= level ->
  exists c, cache_agrees w c /\
    Logger_log level m [] w
    = StreamHandler_emit (facade_handler sid) (record_of w level m)
        (after_call c (streams w) (S (clock_reads w)) w).
Proof.
  intros Hw Hl.
  destruct (Logger_isEnabledFor_spec sid w level Hw) as (c & Hc & He).
  exists c. split; [exact Hc|].
  unfold Logger_log, bind. rewrite He, (enabled_for_above sid w level Hw Hl).
  pose proof (configured_after_call sid w c (streams w) (clock_reads w) Hw Hc) as Hw'.
  rewrite (Logger__log_as_emit sid);
    [ reflexivity | apply (cfg_handlers _ _ Hw') | apply (cfg_enabled _ _ Hw')
    | unfold NOTSET, INFO in *; lia ].
Qed.

Lemma Logger_log_absorbs sid w level m :
  configured sid w -> failure_absorbed sid w -> INFO <= level ->
  fst (Logger_log level m [] w) = Returned tt.
Proof.
  intros Hw [Hok | (f & e & Hf & He & Hexc & Hrec & Habs)] Hl.
  - destruct (Logger_log_accepts sid w level m Hw Hok Hl) as (w' & E & _).
    now rewrite E.
  - destruct (Logger_log_as_emit sid w level m Hw Hl) as (c & _ & E).
    rewrite E. clear E.
    set (w1 := after_call c (streams w) (S (clock_reads w)) w).
    set (r := record_of w level m).
    rewrite (StreamHandler_emit_fault sid r w1 f e); [| reflexivity | exact Hf | exact He].
    assert (Handler_handleError (facade_handler sid) r e w1 = (Returned tt, w1)
            \/ exists w2, Handler_handleError (facade_handler sid) r e w1 = (Returned tt, w2))
      as Hh.
    { destruct Habs as [Hq | [Hq | (s & g & Hs & Hg & Hfault)]].
      - left. apply Handler_handleError_quiet. now left.
      - left. apply Handler_handleError_quiet. now right.
      - destruct (raiseExceptions w) eqn:Hre.
        + destruct Hfault as [Hnone | Hos].
          * right.
            destruct (Handler_handleError_report (facade_handler sid) r e w1 s g)
              as (w2 & E2 & _); try assumption. eauto.
          * left.
            rewrite (Handler_handleError_fault (facade_handler sid) r e w1 s g OSError);
              try assumption. reflexivity.
        + left. apply Handler_handleError_quiet. now left. }
    destruct e; try discriminate; try congruence;
      cbn [is_Exception]; destruct Hh as [-> | (w2 & ->)]; reflexivity.
Qed.

(** ** What a log call leaves alone

    The frame is proved for every world, whatever the handlers and the
    state of the streams are, by following the structure of the code. *)

Create HintDb keeps.

Lemma keeps_ret {A} (a : A) : keeps_configuration (ret a).
Proof. intros w. reflexivity. Qed.

Lemma keeps_raise {A} (e : exn) : keeps_configuration (@raise A e).
Proof. intros w. reflexivity. Qed.

Lemma keeps_lift {A} (r : result A) : keeps_configuration (lift r).
Proof. intros w. reflexivity. Qed.

Lemma keeps_gets {A} (f : World -> A) : keeps_configuration (gets f).
Proof. intros w. reflexivity. Qed.

Lemma keeps_bind {A B} (m : Py A) (k : A -> Py B) :
  keeps_configuration m -> (forall a, keeps_configuration (k a)) ->
  keeps_configuration (bind m k).
Proof.
  intros Hm Hk w. unfold bind. specialize (Hm w).
  destruct (m w) as [[a|e] w']; cbn in *; [|exact Hm].
  now rewrite (Hk a w').
Qed.

Lemma keeps_try {A} (m : Py A) (h : exn -> Py A) :
  keeps_configuration m -> (forall e, keeps_configuration (h e)) ->
  keeps_configuration (try_except m h).
Proof.
  intros Hm Hh w. unfold try_except. specialize (Hm w).
  destruct (m w) as [[a|e] w']; cbn in *; [exact Hm|].
  now rewrite (Hh e w').
Qed.

Lemma keeps_stream_write stream c : keeps_configuration (stream_write stream c).
Proof.
  intros w. unfold stream_write.
  destruct stream as [sid|]; [|reflexivity].
  destruct (streams w !! sid) as [f|]; [|reflexivity].
  destruct (Stream_fault f); reflexivity.
Qed.

Lemma keeps_stream_flush stream : keeps_configuration (stream_flush stream).
Proof.
  intros w. unfold stream_flush.
  destruct stream as [sid|]; [|reflexivity].
  destruct (streams w !! sid) as [f|]; [|reflexivity].
  destruct (Stream_fault f); reflexivity.
Qed.

#[local] Hint Resolve keeps_ret keeps_raise keeps_lift keeps_gets
  keeps_stream_write keeps_stream_flush : keeps.

Lemma keeps_handleError h r e : keeps_configuration (Handler_handleError h r e).
Proof.
  unfold Handler_handleError.
  apply keeps_bind; [auto with keeps | intros re].
  apply keeps_bind; [auto with keeps | intros err].
  destruct (re && bool_decide (is_Some err)); [|auto with keeps].
  apply keeps_try.
  - repeat (apply keeps_bind; [auto with keeps | intros _]).
    apply keeps_try; [auto with keeps|].
    intros e'. destruct e'; cbn [is_Exception]; auto with keeps.
  - intros e'. destruct e'; auto with keeps.
Qed.

Lemma keeps_emit h r : keeps_configuration (StreamHandler_emit h r).
Proof.
  unfold StreamHandler_emit. apply keeps_try.
  - apply keeps_bind; [auto with keeps | intros msg].
    apply keeps_bind; [auto with keeps | intros _].
    unfold StreamHandler_flush. destruct (Handler_stream h); auto with keeps.
  - intros e. destruct e; cbn [is_Exception];
      auto using keeps_handleError with keeps.
Qed.

Lemma keeps_call_each hs r : keeps_configuration (call_each hs r).
Proof.
  induction hs as [|h hs IH]; cbn [call_each]; [auto with keeps|].
  apply keeps_bind; [| intros _; exact IH].
  destruct (Handler_level h <=? LogRecord_levelno r);
    [apply keeps_emit | auto with keeps].
Qed.

Lemma keeps_Logger_handle r : keeps_configuration (Logger_handle r).
Proof.
  unfold Logger_handle. apply keeps_bind; [auto with keeps | intros d].
  destruct (negb d); [|auto with keeps].
  unfold Logger_callHandlers. apply keeps_bind; [auto with keeps | intros hs].
  apply keeps_bind; [apply keeps_call_each | intros _].
  destruct (bool_decide (length hs = 0%nat)); [|auto with keeps].
  apply keeps_bind; [auto with keeps | intros lr].
  destruct (Handler_level lr <=? LogRecord_levelno r);
    [apply keeps_emit | auto with keeps].
Qed.

Lemma keeps_isEnabledFor level : keeps_configuration (Logger_isEnabledFor level).
Proof.
  intros w. unfold Logger_isEnabledFor.
  destruct (Logger_disabled (root w)); [reflexivity|].
  destruct (Logger__cache (root w) !! level); reflexivity.
Qed.

Lemma keeps_Logger_log level m args : keeps_configuration (Logger_log level m args).
Proof.
  unfold Logger_log. apply keeps_bind; [apply keeps_isEnabledFor | intros b].
  destruct b; [|auto with keeps].
  unfold Logger__log. apply keeps_bind; [| intros r; apply keeps_Logger_handle].
  intros w. reflexivity.
Qed.

Lemma log_info_installed w m :
  Logger_handlers (root w) <> [] -> log_info m w = Logger_log INFO m [] w.
Proof.
  intros Hh. unfold log_info, logging_info, bind at 1, gets.
  destruct (Logger_handlers (root w)); [congruence | reflexivity].
Qed.

Lemma log_error_installed w m :
  Logger_handlers (root w) <> [] -> log_error m w = Logger_log ERROR m [] w.
Proof.
  intros Hh. unfold log_error, logging_error, bind at 1, gets.
  destruct (Logger_handlers (root w)); [congruence | reflexivity].
Qed.

(** * The statements of the specification *)

(** C1: for every message [m], the empty one included, [log_info m] in the
    state the module configured, with a sink that accepts writes,
    returns normally and performs exactly one write, to the sink: the
    line made of the timestamp, [" - INFO - "] and [m], followed by the
    terminator.  The line ends in [m], its level field is [INFO], and no
    other stream receives anything: the message is not dropped. *)
Theorem log_info_one_line (sid : nat) (w : World) (m : string) :
  configured sid w -> writable sid w ->
  exists w',
    log_info m w = (Returned tt, w') /\
    output sid w'
    = output sid w ++
      [Text ((asctime_of (clock w (clock_reads w)) +:+ " - INFO - " +:+ m) +:+ LF)] /\
    (forall sid', sid' <> sid -> streams w' !! sid' = streams w !! sid') /\
    str_split " - " 2 (asctime_of (clock w (clock_reads w)) +:+ " - INFO - " +:+ m)
    = [asctime_of (clock w (clock_reads w)); "INFO"; m].
Proof.
  intros Hw Hok. rewrite (log_info_as_log sid w m Hw).
  destruct (Logger_log_accepts sid w INFO m Hw Hok) as (w' & E & Hout & Hrest & _);
    [reflexivity|].
  exists w'. split; [exact E|]. split; [exact Hout|]. split; [exact Hrest|].
  apply (str_split_line _ INFO m). reflexivity.
Qed.

Lemma log_info_one_line_witness :
  configured 2 (loaded sample_clock) /\ writable 2 (loaded sample_clock) /\
  exists w',
    log_info "" (loaded sample_clock) = (Returned tt, w') /\
    output 2 w'
    = output 2 (loaded sample_clock) ++
      [Text ((asctime_of (sample_clock 0%nat) +:+ " - INFO - " +:+ "") +:+ LF)] /\
    (forall sid', sid' <> 2%nat ->
       streams w' !! sid' = streams (loaded sample_clock) !! sid') /\
    str_split " - " 2 (asctime_of (sample_clock 0%nat) +:+ " - INFO - " +:+ "")
    = [asctime_of (sample_clock 0%nat); "INFO"; ""].
Proof.
  split; [apply loaded_configured|]. split; [apply loaded_writable|].
  apply (log_info_one_line 2 (loaded sample_clock) "");
    [apply loaded_configured | apply loaded_writable].
Defined.

(** C2: for every message [m], the empty one included, [log_error m] in
    the state the module configured, with a sink that accepts writes,
    returns normally and performs exactly one write, to the sink: the
    line made of the timestamp, [" - ERROR - "] and [m], followed by the
    terminator.  The line ends in [m], its level field is [ERROR], and no
    other stream receives anything: the message is not dropped. *)
Theorem log_error_one_line (sid : nat) (w : World) (m : string) :
  configured sid w -> writable sid w ->
  exists w',
    log_error m w = (Returned tt, w') /\
    output sid w'
    = output sid w ++
      [Text ((asctime_of (clock w (clock_reads w)) +:+ " - ERROR - " +:+ m) +:+ LF)] /\
    (forall sid', sid' <> sid -> streams w' !! sid' = streams w !! sid') /\
    str_split " - " 2 (asctime_of (clock w (clock_reads w)) +:+ " - ERROR - " +:+ m)
    = [asctime_of (clock w (clock_reads w)); "ERROR"; m].
Proof.
  intros Hw Hok. rewrite (log_error_as_log sid w m Hw).
  destruct (Logger_log_accepts sid w ERROR m Hw Hok) as (w' & E & Hout & Hrest & _);
    [unfold INFO, ERROR; lia|].
  exists w'. split; [exact E|]. split; [exact Hout|]. split; [exact Hrest|].
  apply (str_split_line _ ERROR m). reflexivity.
Qed.

Lemma log_error_one_line_witness :
  configured 2 (loaded sample_clock) /\ writable 2 (loaded sample_clock) /\
  exists w',
    log_error "" (loaded sample_clock) = (Returned tt, w') /\
    output 2 w'
    = output 2 (loaded sample_clock) ++
      [Text ((asctime_of (sample_clock 0%nat) +:+ " - ERROR - " +:+ "") +:+ LF)] /\
    (forall sid', sid' <> 2%nat ->
       streams w' !! sid' = streams (loaded sample_clock) !! sid') /\
    str_split " - " 2 (asctime_of (sample_clock 0%nat) +:+ " - ERROR - " +:+ "")
    = [asctime_of (sample_clock 0%nat); "ERROR"; ""].
Proof.
  split; [apply loaded_configured|]. split; [apply loaded_writable|].
  apply (log_error_one_line 2 (loaded sample_clock) "");
    [apply loaded_configured | apply loaded_writable].
Defined.

Lemma str_split_head (ct : WallClock) (level : Z) :
  dash_safe (getLevelName level) = true ->
  str_split " - " 3 (asctime_of ct +:+ " - " +:+ getLevelName level +:+ " - ")
  = [asctime_of ct; getLevelName level; ""].
Proof.
  intros Hl.
  change (asctime_of ct +:+ " - " +:+ getLevelName level +:+ " - ")
    with (line_of ct level "").
  unfold line_of. cbn [str_split].
  rewrite (str_partition_dash_safe _ _ (dash_safe_asctime ct)).
  rewrite (str_partition_dash_safe _ _ Hl). reflexivity.
Qed.

Lemma line_of_head (ct : WallClock) (level : Z) (m : string) :
  line_of ct level m
  = (asctime_of ct +:+ " - " +:+ getLevelName level +:+ " - ") +:+ m.
Proof. unfold line_of. now rewrite !str_app_assoc. Qed.

(** C3: the line that [log_info] or [log_error] writes is the timestamp,
    the upper-case level name and the caller's message joined by
    [" - "].  The text in front of the message holds the separator
    exactly twice, and splitting the line at its first two separators
    gives back the three fields, whatever the message contains. *)
Theorem emitted_line_fields (sid : nat) (w : World) (m : string) :
  configured sid w -> writable sid w ->
  let ts := asctime_of (clock w (clock_reads w)) in
  exists w1 w2 head1 head2,
    log_info m w = (Returned tt, w1) /\
    output sid w1 = output sid w ++ [Text ((head1 +:+ m) +:+ LF)] /\
    str_split " - " 3 head1 = [ts; "INFO"; ""] /\
    str_split " - " 2 (head1 +:+ m) = [ts; "INFO"; m] /\
    log_error m w = (Returned tt, w2) /\
    output sid w2 = output sid w ++ [Text ((head2 +:+ m) +:+ LF)] /\
    str_split " - " 3 head2 = [ts; "ERROR"; ""] /\
    str_split " - " 2 (head2 +:+ m) = [ts; "ERROR"; m].
Proof.
  intros Hw Hok ts.
  rewrite (log_info_as_log sid w m Hw), (log_error_as_log sid w m Hw).
  destruct (Logger_log_accepts sid w INFO m Hw Hok) as (w1 & E1 & Hout1 & _);
    [reflexivity|].
  destruct (Logger_log_accepts sid w ERROR m Hw Hok) as (w2 & E2 & Hout2 & _);
    [unfold INFO, ERROR; lia|].
  exists w1, w2, (ts +:+ " - " +:+ getLevelName INFO +:+ " - "),
    (ts +:+ " - " +:+ getLevelName ERROR +:+ " - ").
  subst ts. rewrite <- !line_of_head.
  repeat split; try assumption.
  - apply (str_split_head _ INFO). reflexivity.
  - apply (str_split_line _ INFO). reflexivity.
  - apply (str_split_head _ ERROR). reflexivity.
  - apply (str_split_line _ ERROR). reflexivity.
Qed.

Lemma emitted_line_fields_witness :
  configured 2 (loaded sample_clock) /\ writable 2 (loaded sample_clock) /\
  let ts := asctime_of (sample_clock 0%nat) in
  exists w1 w2 head1 head2,
    log_info "a - b - c" (loaded sample_clock) = (Returned tt, w1) /\
    output 2 w1
    = output 2 (loaded sample_clock) ++ [Text ((head1 +:+ "a - b - c") +:+ LF)] /\
    str_split " - " 3 head1 = [ts; "INFO"; ""] /\
    str_split " - " 2 (head1 +:+ "a - b - c") = [ts; "INFO"; "a - b - c"] /\
    log_error "a - b - c" (loaded sample_clock) = (Returned tt, w2) /\
    output 2 w2
    = output 2 (loaded sample_clock) ++ [Text ((head2 +:+ "a - b - c") +:+ LF)] /\
    str_split " - " 3 head2 = [ts; "ERROR"; ""] /\
    str_split " - " 2 (head2 +:+ "a - b - c") = [ts; "ERROR"; "a - b - c"].
Proof.
  split; [apply loaded_configured|]. split; [apply loaded_writable|].
  apply (emitted_line_fields 2 (loaded sample_clock) "a - b - c");
    [apply loaded_configured | apply loaded_writable].
Defined.

(** The lines that a sequence of [logging.log] calls leaves on the sink. *)
Lemma run_calls_trace (sid : nat) (calls : list (Z * string)) (w : World) :
  configured sid w -> writable sid w ->
  exists w' lines,
    run_calls calls w = (Returned tt, w') /\
    output sid w' = output sid w ++ lines /\
    (forall sid', sid' <> sid -> streams w' !! sid' = streams w !! sid') /\
    Forall (fun c => exists level m ct,
              (level, m) ∈ calls /\ INFO <= level /\
              c = Text (line_of ct level m +:+ LF)) lines /\
    length lines = length (filter (fun c => INFO <= c.1) calls) /\
    clock_reads w' = (clock_reads w + length lines)%nat.
Proof.
  revert w. induction calls as [|[level m] calls IH]; intros w Hw Hok.
  - exists w, []. cbn. rewrite app_nil_r. repeat split; auto.
  - cbn [run_calls]. unfold bind.
    rewrite (logging_log_configured sid w level m [] Hw).
    destruct (Z_lt_le_dec level INFO) as [Hlt | Hge].
    + destruct (Logger_log_dropped sid w level m [] Hw Hlt) as (c & Hc & E).
      rewrite E.
      destruct (IH (after_call c (streams w) (clock_reads w) w))
        as (w' & lines & Erun & Hout & Hrest & Hall & Hlen & Hclk).
      { now apply configured_after_call. }
      { exact Hok. }
      exists w', lines. split; [exact Erun|]. split; [exact Hout|].
      split; [exact Hrest|]. split; [|split; [|exact Hclk]].
      * eapply Forall_impl; [exact Hall|].
        intros x (l' & m' & ct & Hin & Hl' & ->).
        exists l', m', ct. split; [now apply list_elem_of_further | auto].
      * rewrite filter_cons_False by (cbn; lia). exact Hlen.
    + destruct (Logger_log_accepts sid w level m Hw Hok Hge)
        as (w1 & E & Hout1 & Hrest1 & Hw1 & Hok1 & Hclk1 & Hck1).
      rewrite E.
      destruct (IH w1 Hw1 Hok1)
        as (w' & lines & Erun & Hout & Hrest & Hall & Hlen & Hclk).
      exists w', (Text (line_of (clock w (clock_reads w)) level m +:+ LF) :: lines).
      split; [exact Erun|]. split; [|split; [|split; [|split]]].
      * rewrite Hout, Hout1, <- app_assoc. reflexivity.
      * intros sid' Hne. now rewrite Hrest, Hrest1.
      * constructor.
        -- exists level, m, (clock w (clock_reads w)).
           split; [apply list_elem_of_here | auto].
        -- eapply Forall_impl; [exact Hall|].
           intros x (l' & m' & ct & Hin & Hl' & ->).
           exists l', m', ct. split; [now apply list_elem_of_further | auto].
      * rewrite filter_cons_True by (cbn; lia). cbn. now rewrite Hlen.
      * rewrite Hclk, Hclk1. cbn. lia.
Qed.

(** C4: in the configured state a call [logging.log(level, msg)] below
    [INFO] returns without creating a record: no stream receives
    anything, no clock reading is taken, the configuration stays.  Along
    any sequence of such calls at any levels, every line written to the
    sink comes from a call whose level is at least [INFO], and the lines
    written and the clock readings taken are as many as the calls at or
    above [INFO]. *)
Theorem threshold_invariant (sid : nat) (w : World) :
  configured sid w ->
  (forall level m args, level < INFO ->
     exists w', logging_log level m args w = (Returned tt, w') /\
                streams w' = streams w /\ clock_reads w' = clock_reads w /\
                configuration w' = configuration w) /\
  (writable sid w ->
   forall calls, exists w' lines,
     run_calls calls w = (Returned tt, w') /\
     output sid w' = output sid w ++ lines /\
     (forall sid', sid' <> sid -> streams w' !! sid' = streams w !! sid') /\
     Forall (fun c => exists level m ct,
               (level, m) ∈ calls /\ INFO <= level /\
               c = Text (line_of ct level m +:+ LF)) lines /\
     length lines = length (filter (fun c => INFO <= c.1) calls) /\
     clock_reads w' = (clock_reads w + length lines)%nat).
Proof.
  intros Hw. split.
  - intros level m args Hlt.
    rewrite (logging_log_configured sid w level m args Hw).
    destruct (Logger_log_dropped sid w level m args Hw Hlt) as (c & _ & E).
    rewrite E. eexists. split; [reflexivity|]. repeat split.
  - intros Hok calls. apply (run_calls_trace sid calls w Hw Hok).
Qed.

Lemma threshold_invariant_witness :
  configured 2 (loaded sample_clock) /\
  (forall level m args, level < INFO ->
     exists w', logging_log level m args (loaded sample_clock) = (Returned tt, w') /\
                streams w' = streams (loaded sample_clock) /\
                clock_reads w' = clock_reads (loaded sample_clock) /\
                configuration w' = configuration (loaded sample_clock)) /\
  (writable 2 (loaded sample_clock) ->
   forall calls, exists w' lines,
     run_calls calls (loaded sample_clock) = (Returned tt, w') /\
     output 2 w' = output 2 (loaded sample_clock) ++ lines /\
     (forall sid', sid' <> 2%nat ->
        streams w' !! sid' = streams (loaded sample_clock) !! sid') /\
     Forall (fun c => exists level m ct,
               (level, m) ∈ calls /\ INFO <= level /\
               c = Text (line_of ct level m +:+ LF)) lines /\
     length lines = length (filter (fun c => INFO <= c.1) calls) /\
     clock_reads w' = (clock_reads (loaded sample_clock) + length lines)%nat).
Proof.
  split; [apply loaded_configured|].
  apply (threshold_invariant 2 (loaded sample_clock)). apply loaded_configured.
Defined.

(** C5: run as the entry point in a fresh process, the module writes
    exactly two lines, both to [sys.stderr] and nothing to [sys.stdout]:
    first the [INFO] line with ['This is an info message.'], then the
    [ERROR] line with ['This is an error message.']; the exit status
    is 0. *)
Theorem run_main_two_lines (clk : nat -> WallClock) :
  exists w',
    run_main (fresh_process clk) = (0, w') /\
    output 2 w'
    = [ Text ((asctime_of (clk 0%nat) +:+ " - INFO - This is an info message.") +:+ LF);
        Text ((asctime_of (clk 1%nat) +:+ " - ERROR - This is an error message.") +:+ LF) ] /\
    output 1 w' = [].
Proof.
  unfold run_main, module_body.
  change ("__main__" =? "__main__")%string with true. cbv iota.
  unfold bind at 1.
  destruct (configure_first 2 (fresh_process clk))
    as (w0 & E0 & Hw0 & Hs0 & Hn0 & Hc0); try reflexivity.
  rewrite E0. unfold bind at 1.
  assert (writable 2 w0) as Hok0.
  { unfold writable. rewrite Hs0. eexists. split; reflexivity. }
  rewrite (log_info_as_log 2 w0 _ Hw0).
  destruct (Logger_log_accepts 2 w0 INFO "This is an info message." Hw0 Hok0)
    as (w1 & E1 & Hout1 & Hrest1 & Hw1 & Hok1 & Hn1 & Hc1); [reflexivity|].
  rewrite E1. rewrite (log_error_as_log 2 w1 _ Hw1).
  destruct (Logger_log_accepts 2 w1 ERROR "This is an error message." Hw1 Hok1)
    as (w2 & E2 & Hout2 & Hrest2 & _); [unfold INFO, ERROR; lia|].
  rewrite E2. exists w2. split; [reflexivity|]. split.
  - rewrite Hout2, Hout1, Hn1, Hc1, Hn0, Hc0. unfold output at 1. rewrite Hs0.
    reflexivity.
  - unfold output. rewrite Hrest2, Hrest1, Hs0 by discriminate. reflexivity.
Qed.

Lemma stderr_closed_configured : configured 2 stderr_closed.
Proof.
  split; try reflexivity. intros l b Hl. cbn in Hl. discriminate.
Qed.

Lemma stderr_broken_configured : configured 2 stderr_broken.
Proof.
  split; try reflexivity. intros l b Hl. cbn in Hl. discriminate.
Qed.

(** C6, as stated, fails: after [sys.stderr.close()] the write of the
    handler raises [ValueError], [handleError] tries to report on the
    same closed file, that second [ValueError] is not an [OSError], and
    it reaches the caller of [log_info] and of [log_error]. *)
Lemma closed_stderr_raises :
  configured 2 stderr_closed /\
  sys_stderr stderr_closed = Some 2%nat /\
  Stream_fault <$> (streams stderr_closed !! 2%nat) = Some (Some ValueError) /\
  fst (log_info "x" stderr_closed) = Raised ValueError /\
  fst (log_error "x" stderr_closed) = Raised ValueError.
Proof.
  split; [apply stderr_closed_configured|].
  repeat split; vm_compute; reflexivity.
Qed.

(** C6, amended: [log_info m] and [log_error m] return normally when the
    sink accepts the write, and also when the sink refuses it with an
    ordinary exception (an [Exception] other than [RecursionError]) and
    the report of [Handler.handleError] is absorbed: reporting is
    switched off, there is no [sys.stderr], [sys.stderr] accepts the
    report, or it refuses it with [OSError]. *)
Theorem log_calls_absorb_failures (sid : nat) (w : World) (m : string) :
  configured sid w -> failure_absorbed sid w ->
  fst (log_info m w) = Returned tt /\ fst (log_error m w) = Returned tt.
Proof.
  intros Hw Habs.
  rewrite (log_info_as_log sid w m Hw), (log_error_as_log sid w m Hw).
  split; apply (Logger_log_absorbs sid); auto; unfold INFO, ERROR; lia.
Qed.

Lemma log_calls_absorb_failures_witness :
  configured 2 stderr_broken /\ failure_absorbed 2 stderr_broken /\
  fst (log_info "x" stderr_broken) = Returned tt /\
  fst (log_error "x" stderr_broken) = Returned tt.
Proof.
  assert (failure_absorbed 2 stderr_broken) as Habs.
  { right. exists {| Stream_fault := Some OSError; Stream_written := [] |}, OSError.
    repeat split; try reflexivity; try discriminate.
    right. right.
    exists 2%nat, {| Stream_fault := Some OSError; Stream_written := [] |}.
    repeat split; try reflexivity. now right. }
  split; [apply stderr_broken_configured|]. split; [exact Habs|].
  apply (log_calls_absorb_failures 2 stderr_broken "x");
    [apply stderr_broken_configured | exact Habs].
Defined.

Lemma configure_times_again sid w n :
  configured sid w -> configure_times n w = (Returned tt, w).
Proof.
  intros Hw. induction n as [|n IH]; [reflexivity|].
  cbn [configure_times]. unfold bind. now rewrite (configure_again sid w Hw).
Qed.

(** C7: however many times the configuration step runs in a fresh
    process, the state is the one that the first run produced, with one
    handler on the root logger, and each call of [log_info] or
    [log_error] writes one line. *)
Theorem configure_idempotent (clk : nat -> WallClock) (n : nat) (m : string) :
  configure_times (S n) (fresh_process clk) = (Returned tt, loaded clk) /\
  Logger_handlers (root (loaded clk)) = [facade_handler 2] /\
  exists w1 w2,
    log_info m (loaded clk) = (Returned tt, w1) /\
    output 2 w1 = [Text ((asctime_of (clk 0%nat) +:+ " - INFO - " +:+ m) +:+ LF)] /\
    log_error m (loaded clk) = (Returned tt, w2) /\
    output 2 w2 = [Text ((asctime_of (clk 0%nat) +:+ " - ERROR - " +:+ m) +:+ LF)].
Proof.
  pose proof (loaded_configured clk) as Hw.
  pose proof (loaded_writable clk) as Hok.
  split; [|split; [reflexivity|]].
  - cbn [configure_times]. unfold bind.
    change (configure (fresh_process clk)) with (Returned tt, loaded clk).
    apply (configure_times_again 2 _ n Hw).
  - rewrite (log_info_as_log 2 _ m Hw), (log_error_as_log 2 _ m Hw).
    destruct (Logger_log_accepts 2 _ INFO m Hw Hok) as (w1 & E1 & Hout1 & _);
      [reflexivity|].
    destruct (Logger_log_accepts 2 _ ERROR m Hw Hok) as (w2 & E2 & Hout2 & _);
      [unfold INFO, ERROR; lia|].
    exists w1, w2. repeat split; assumption.
Qed.

Lemma configure_streams w :
  exists w', configure w = (Returned tt, w') /\ streams w' = streams w.
Proof.
  destruct w as [[lv hs dis ca] md re err ss ck n].
  unfold configure, basicConfig, bind, gets, modify. cbn.
  destruct hs; cbn; eauto.
Qed.

(** C8: executing the module under a name other than ['__main__'], in any
    state of the process, returns normally and leaves every stream as it
    was; so does the configuration step, however often it runs. *)
Theorem import_writes_nothing (__name__ : string) (w : World) :
  __name__ <> "__main__" ->
  (exists w', module_body __name__ w = (Returned tt, w') /\ streams w' = streams w) /\
  (forall n, exists w', configure_times n w = (Returned tt, w') /\
                        streams w' = streams w).
Proof.
  intros Hname. split.
  - unfold module_body, bind.
    destruct (configure_streams w) as (w' & E & Hs). rewrite E.
    apply String.eqb_neq in Hname. rewrite Hname. eauto.
  - intros n. revert w. induction n as [|n IH]; intros w; [cbn; eauto|].
    cbn [configure_times]. unfold bind.
    destruct (configure_streams w) as (w' & E & Hs). rewrite E.
    destruct (IH w') as (w'' & E' & Hs'). exists w''. split; [exact E'|].
    now rewrite Hs', Hs.
Qed.

Lemma import_writes_nothing_witness :
  "logging_utils" <> "__main__" /\
  (exists w', module_body "logging_utils" (fresh_process sample_clock)
              = (Returned tt, w') /\
              streams w' = streams (fresh_process sample_clock)) /\
  (forall n, exists w', configure_times n (fresh_process sample_clock)
                        = (Returned tt, w') /\
                        streams w' = streams (fresh_process sample_clock)).
Proof.
  split; [discriminate|].
  apply (import_writes_nothing "logging_utils" (fresh_process sample_clock)).
  discriminate.
Defined.

Lemma keeps_log_info m w :
  Logger_handlers (root w) <> [] ->
  configuration (snd (log_info m w)) = configuration w.
Proof.
  intros Hh. rewrite (log_info_installed w m Hh). apply keeps_Logger_log.
Qed.

Lemma keeps_log_error m w :
  Logger_handlers (root w) <> [] ->
  configuration (snd (log_error m w)) = configuration w.
Proof.
  intros Hh. rewrite (log_error_installed w m Hh). apply keeps_Logger_log.
Qed.

(** C9: once a handler is installed, which loading the module does, no
    sequence of [log_info] and [log_error] calls changes the threshold
    or the handlers with their format template, whether the calls
    succeed or raise; the configuration is the one written at load. *)
Theorem log_calls_keep_configuration (calls : list facade_call) (w : World) :
  Logger_handlers (root w) <> [] ->
  configuration (snd (run_facade calls w)) = configuration w.
Proof.
  revert w. induction calls as [|[m|m] calls IH]; intros w Hh; [reflexivity | |].
  - cbn [run_facade]. unfold bind.
    pose proof (keeps_log_info m w Hh) as Hk.
    destruct (log_info m w) as [[[]|e] w']; cbn in Hk |- *; [|exact Hk].
    rewrite IH; [exact Hk|].
    unfold configuration in Hk. injection Hk as _ Hk. now rewrite Hk.
  - cbn [run_facade]. unfold bind.
    pose proof (keeps_log_error m w Hh) as Hk.
    destruct (log_error m w) as [[[]|e] w']; cbn in Hk |- *; [|exact Hk].
    rewrite IH; [exact Hk|].
    unfold configuration in Hk. injection Hk as _ Hk. now rewrite Hk.
Qed.

Lemma log_calls_keep_configuration_witness :
  Logger_handlers (root (loaded sample_clock)) <> [] /\
  configuration (snd (run_facade [CallInfo "a"; CallError "b"; CallInfo ""]
                        (loaded sample_clock)))
  = configuration (loaded sample_clock).
Proof.
  split; [discriminate|].
  apply (log_calls_keep_configuration [CallInfo "a"; CallError "b"; CallInfo ""]
           (loaded sample_clock)).
  discriminate.
Defined.

(** C10: the record of a facade call has no arguments, so
    [LogRecord.getMessage] returns the text as it is, and the line
    written carries [m] unchanged after the level field, also when [m]
    holds directives such as [%s] or [%d]. *)
Theorem message_is_verbatim (sid : nat) (w : World) (m : string) :
  configured sid w -> writable sid w ->
  LogRecord_getMessage (record_of w INFO m) = Returned m /\
  LogRecord_getMessage (record_of w ERROR m) = Returned m /\
  exists w1 w2,
    log_info m w = (Returned tt, w1) /\
    output sid w1
    = output sid w ++
      [Text ((asctime_of (clock w (clock_reads w)) +:+ " - INFO - " +:+ m) +:+ LF)] /\
    log_error m w = (Returned tt, w2) /\
    output sid w2
    = output sid w ++
      [Text ((asctime_of (clock w (clock_reads w)) +:+ " - ERROR - " +:+ m) +:+ LF)].
Proof.
  intros Hw Hok. split; [reflexivity|]. split; [reflexivity|].
  rewrite (log_info_as_log sid w m Hw), (log_error_as_log sid w m Hw).
  destruct (Logger_log_accepts sid w INFO m Hw Hok) as (w1 & E1 & Hout1 & _);
    [reflexivity|].
  destruct (Logger_log_accepts sid w ERROR m Hw Hok) as (w2 & E2 & Hout2 & _);
    [unfold INFO, ERROR; lia|].
  exists w1, w2. repeat split; assumption.
Qed.

Lemma message_is_verbatim_witness :
  configured 2 (loaded sample_clock) /\ writable 2 (loaded sample_clock) /\
  LogRecord_getMessage (record_of (loaded sample_clock) INFO "%s is %d%%")
  = Returned "%s is %d%%" /\
  LogRecord_getMessage (record_of (loaded sample_clock) ERROR "%s is %d%%")
  = Returned "%s is %d%%" /\
  exists w1 w2,
    log_info "%s is %d%%" (loaded sample_clock) = (Returned tt, w1) /\
    output 2 w1
    = output 2 (loaded sample_clock) ++
      [Text ((asctime_of (sample_clock 0%nat) +:+ " - INFO - " +:+ "%s is %d%%") +:+ LF)] /\
    log_error "%s is %d%%" (loaded sample_clock) = (Returned tt, w2) /\
    output 2 w2
    = output 2 (loaded sample_clock) ++
      [Text ((asctime_of (sample_clock 0%nat) +:+ " - ERROR - " +:+ "%s is %d%%") +:+ LF)].
Proof.
  split; [apply loaded_configured|]. split; [apply loaded_writable|].
  apply (message_is_verbatim 2 (loaded sample_clock) "%s is %d%%");
    [apply loaded_configured | apply loaded_writable].
Defined.

(** ** The model on concrete inputs *)

Example strftime_default_ex :
  strftime_default {| tm_year := 2026; tm_mon := 11; tm_mday := 4; tm_hour := 0;
                      tm_min := 2; tm_sec := 55; msecs := 67 |}
  = "2026-11-04 00:02:55".
Proof. reflexivity. Qed.

Example percent_mapping_ex :
  percent_mapping (<["a" := "x%sy"]> ∅) FLit "100%% %(a)s." = Returned "100% x%sy.".
Proof. vm_compute. reflexivity. Qed.

Example run_main_ex :
  let (status, w') := run_main (fresh_process sample_clock) in
  status = 0 /\
  output 2 w'
  = [ Text ("2026-11-04 00:02:55,067 - INFO - This is an info message." +:+ LF);
      Text ("2026-11-04 00:02:55,067 - ERROR - This is an error message." +:+ LF) ].
Proof. vm_compute. split; reflexivity. Qed.

(** With arguments, [getMessage] does interpolate; the facade passes none. *)
Example logging_info_args_ex :
  output 2 (snd (logging_info "disk %s is full" ["sda1"] (loaded sample_clock)))
  = [ Text ("2026-11-04 00:02:55,067 - INFO - disk sda1 is full" +:+ LF) ].
Proof. vm_compute. reflexivity. Qed.

Example log_info_percent_ex :
  output 2 (snd (log_info "disk %s is full" (loaded sample_clock)))
  = [ Text ("2026-11-04 00:02:55,067 - INFO - disk %s is full" +:+ LF) ].
Proof. vm_compute. reflexivity. Qed.

Example debug_dropped_ex :
  let (r, w') := logging_log DEBUG "not shown" [] (loaded sample_clock) in
  r = Returned tt /\ output 2 w' = [] /\ clock_reads w' = 0%nat.
Proof. vm_compute. repeat split; reflexivity. Qed.

(** A message with a line break is written as it is, in the one write. *)
Example log_info_multiline_ex :
  output 2 (snd (log_info ("a" +:+ LF +:+ "b") (loaded sample_clock)))
  = [ Text ("2026-11-04 00:02:55,067 - INFO - a" +:+ LF +:+ "b" +:+ LF) ].
Proof. vm_compute. reflexivity. Qed.

(** [sys.stderr] broken with [OSError]: the call returns, nothing is written. *)
Example stderr_broken_ex :
  let (r, w') := log_error "x" stderr_broken in
  r = Returned tt /\ output 2 w' = [].
Proof. vm_compute. split; reflexivity. Qed.

Example str_split_ex :
  str_split " - " 2 "2026-11-04 00:02:55,067 - INFO - a - b - c"
  = ["2026-11-04 00:02:55,067"; "INFO"; "a - b - c"].
Proof. reflexivity. Qed.

(** The handler still holds the closed file while [sys.stderr] has been
    rebound to file object 1: the failure is reported there. *)
Example report_elsewhere_ex :
  let w := {| root := root stderr_closed; manager_disable := 0;
              raiseExceptions := true; sys_stderr := Some 1%nat;
              streams := streams stderr_closed; clock := sample_clock;
              clock_reads := 0 |} in
  let (r, w') := log_info "x" w in
  r = Returned tt /\ output 2 w' = [] /\
  output 1 w' = error_report (record_of w INFO "x") ValueError.
Proof. vm_compute. repeat split; reflexivity. Qed.

(** * Further properties of the module *)

(** ** Sequences of calls *)

(** X1: in the configured state with a sink that accepts writes, a
    sequence of [log_info] and [log_error] calls returns normally and
    appends one line per call, in call order, each stamped with the next
    clock reading; no other stream changes. *)
Theorem run_facade_output (sid : nat) (calls : list facade_call) (w : World) :
  configured sid w -> writable sid w ->
  exists w',
    run_facade calls w = (Returned tt, w') /\
    output sid w'
    = output sid w ++ lines_of_calls (clock w) (clock_reads w) calls /\
    (forall sid', sid' <> sid -> streams w' !! sid' = streams w !! sid') /\
    clock_reads w' = (clock_reads w + length calls)%nat.
Proof.
  revert w. induction calls as [|c calls IH]; intros w Hw Hok.
  - exists w. cbn. rewrite app_nil_r, Nat.add_0_r. auto.
  - assert (exists w1,
              (match c with
               | CallInfo m => log_info m
               | CallError m => log_error m
               end) w = (Returned tt, w1) /\
              output sid w1
              = output sid w ++
                [Text (line_of (clock w (clock_reads w)) (call_level c)
                         (call_message c) +:+ LF)] /\
              (forall sid', sid' <> sid -> streams w1 !! sid' = streams w !! sid') /\
              configured sid w1 /\ writable sid w1 /\
              clock_reads w1 = S (clock_reads w) /\ clock w1 = clock w)
      as (w1 & E & Hout & Hrest & Hw1 & Hok1 & Hn & Hc).
    { destruct c as [m|m]; cbn [call_level call_message].
      - rewrite (log_info_as_log sid w m Hw).
        apply Logger_log_accepts; auto. reflexivity.
      - rewrite (log_error_as_log sid w m Hw).
        apply Logger_log_accepts; auto. unfold INFO, ERROR. lia. }
    destruct (IH w1 Hw1 Hok1) as (w' & E' & Hout' & Hrest' & Hn').
    exists w'. split.
    + destruct c; cbn [run_facade]; unfold bind; rewrite E; exact E'.
    + split; [|split].
      * rewrite Hout', Hout, Hc, Hn, <- app_assoc. reflexivity.
      * intros sid' Hne. now rewrite Hrest', Hrest.
      * rewrite Hn', Hn. cbn. lia.
Qed.

Lemma run_facade_output_witness :
  configured 2 (loaded sample_clock) /\ writable 2 (loaded sample_clock) /\
  exists w',
    run_facade [CallError "b"; CallInfo "a"; CallInfo ""] (loaded sample_clock)
    = (Returned tt, w') /\
    output 2 w'
    = output 2 (loaded sample_clock) ++
      lines_of_calls (clock (loaded sample_clock))
        (clock_reads (loaded sample_clock))
        [CallError "b"; CallInfo "a"; CallInfo ""] /\
    (forall sid', sid' <> 2%nat ->
       streams w' !! sid' = streams (loaded sample_clock) !! sid') /\
    clock_reads w'
    = (clock_reads (loaded sample_clock) +
       length [CallError "b"; CallInfo "a"; CallInfo ""])%nat.
Proof.
  split; [apply loaded_configured|]. split; [apply loaded_writable|].
  apply (run_facade_output 2 [CallError "b"; CallInfo "a"; CallInfo ""]
           (loaded sample_clock));
    [apply loaded_configured | apply loaded_writable].
Defined.

(** ** A logger that was configured before the module is imported *)

(** X2: when the root logger already has a handler, executing the module
    under a name other than ['__main__'] changes nothing at all: line 6
    is skipped by [basicConfig], so neither the level [INFO] nor the
    module's format is applied. *)
Theorem import_after_host_configuration (__name__ : string) (w : World) :
  __name__ <> "__main__" -> Logger_handlers (root w) <> [] ->
  module_body __name__ w = (Returned tt, w).
Proof.
  intros Hname Hh. unfold module_body, configure, basicConfig, bind, gets.
  destruct (Logger_handlers (root w)) as [|h hs]; [congruence|].
  cbn. apply String.eqb_neq in Hname. now rewrite Hname.
Qed.

Lemma import_after_host_configuration_witness :
  "logging_utils" <> "__main__" /\
  Logger_handlers (root (host_configured sample_clock)) <> [] /\
  module_body "logging_utils" (host_configured sample_clock)
  = (Returned tt, host_configured sample_clock).
Proof.
  split; [discriminate|]. split; [discriminate|].
  apply (import_after_host_configuration "logging_utils"
           (host_configured sample_clock)); discriminate.
Defined.

Lemma Logger_log_silenced w level m args :
  cache_agrees w (Logger__cache (root w)) -> silenced w level ->
  exists w', Logger_log level m args w = (Returned tt, w') /\
             streams w' = streams w /\ clock_reads w' = clock_reads w.
Proof.
  intros Hc Hs. unfold Logger_log, bind, Logger_isEnabledFor.
  destruct (Logger_disabled (root w)) eqn:Hd; [eauto|].
  assert (enabled_for w level = false) as Hen.
  { unfold enabled_for. destruct Hs as [Hs | [Hs | Hs]]; [congruence | |].
    - apply Z.leb_le in Hs. now rewrite Hs.
    - destruct (level <=? manager_disable w); [reflexivity|].
      apply Z.leb_gt. exact Hs. }
  destruct (Logger__cache (root w) !! level) as [b|] eqn:Hl.
  - rewrite (Hc _ _ Hl), Hen. eauto.
  - fold (enabled_for w level). rewrite Hen. eauto.
Qed.

(** X3: with a handler installed and a cache that agrees with the levels,
    [log_info m] returns without writing and without creating a record
    whenever [isEnabledFor(INFO)] answers no (logger disabled,
    [logging.disable] at [INFO] or above, or an effective level above
    [INFO], as after the host's own [basicConfig()]); [log_error m] does
    the same when [ERROR] is refused. *)
Theorem log_calls_silenced (w : World) (m : string) :
  Logger_handlers (root w) <> [] ->
  cache_agrees w (Logger__cache (root w)) ->
  silenced w INFO ->
  (exists w', log_info m w = (Returned tt, w') /\
              streams w' = streams w /\ clock_reads w' = clock_reads w) /\
  (silenced w ERROR ->
   exists w', log_error m w = (Returned tt, w') /\
              streams w' = streams w /\ clock_reads w' = clock_reads w).
Proof.
  intros Hh Hc Hs. split.
  - rewrite (log_info_installed w m Hh). now apply Logger_log_silenced.
  - intros Hs'. rewrite (log_error_installed w m Hh).
    now apply Logger_log_silenced.
Qed.

Lemma log_calls_silenced_witness :
  Logger_handlers (root (host_configured sample_clock)) <> [] /\
  cache_agrees (host_configured sample_clock)
    (Logger__cache (root (host_configured sample_clock))) /\
  silenced (host_configured sample_clock) INFO /\
  (exists w', log_info "x" (host_configured sample_clock) = (Returned tt, w') /\
              streams w' = streams (host_configured sample_clock) /\
              clock_reads w' = clock_reads (host_configured sample_clock)) /\
  (silenced (host_configured sample_clock) ERROR ->
   exists w', log_error "x" (host_configured sample_clock) = (Returned tt, w') /\
              streams w' = streams (host_configured sample_clock) /\
              clock_reads w' = clock_reads (host_configured sample_clock)).
Proof.
  assert (cache_agrees (host_configured sample_clock)
            (Logger__cache (root (host_configured sample_clock)))) as Hc.
  { intros l b Hl. cbn in Hl. discriminate. }
  assert (silenced (host_configured sample_clock) INFO) as Hs.
  { right. right. reflexivity. }
  split; [discriminate|]. split; [exact Hc|]. split; [exact Hs|].
  apply (log_calls_silenced (host_configured sample_clock) "x");
    [discriminate | exact Hc | exact Hs].
Defined.

(** ** The sink refuses the write: what reaches the caller *)

Lemma faulty_loaded_configured clk e :
  configured 2 (snd (configure (faulty_process clk e))).
Proof.
  split; try reflexivity. intros l b Hl. cbn in Hl. discriminate.
Qed.

Lemma Logger_log_fatal sid w f e level m :
  configured sid w ->
  streams w !! sid = Some f -> Stream_fault f = Some e ->
  e = RecursionError \/ is_Exception e = false ->
  INFO <= level ->
  fst (Logger_log level m [] w) = Raised e /\
  streams (snd (Logger_log level m [] w)) = streams w.
Proof.
  intros Hw Hf He Hfatal Hl.
  destruct (Logger_log_as_emit sid w level m Hw Hl) as (c & _ & E).
  rewrite E.
  rewrite (StreamHandler_emit_fault sid _ _ f e); [| reflexivity | exact Hf | exact He].
  destruct Hfatal as [-> | Hne]; [split; reflexivity|].
  destruct e; try discriminate; split; reflexivity.
Qed.

(** X4: when the sink's write raises [RecursionError] or an exception
    that is not an [Exception] (such as [KeyboardInterrupt]), [log_info]
    and [log_error] raise that same exception to the caller, and no
    stream has received anything: such failures are never absorbed. *)
Theorem log_calls_reraise_fatal (sid : nat) (w : World) (f : Stream)
    (e : exn) (m : string) :
  configured sid w ->
  streams w !! sid = Some f -> Stream_fault f = Some e ->
  e = RecursionError \/ is_Exception e = false ->
  (fst (log_info m w) = Raised e /\ streams (snd (log_info m w)) = streams w) /\
  (fst (log_error m w) = Raised e /\ streams (snd (log_error m w)) = streams w).
Proof.
  intros Hw Hf He Hfatal.
  rewrite (log_info_as_log sid w m Hw), (log_error_as_log sid w m Hw).
  split; apply (Logger_log_fatal sid w f e); auto; unfold INFO, ERROR; lia.
Qed.

Lemma log_calls_reraise_fatal_witness :
  let w := snd (configure (faulty_process sample_clock KeyboardInterrupt)) in
  configured 2 w /\
  streams w !! 2%nat
  = Some {| Stream_fault := Some KeyboardInterrupt; Stream_written := [] |} /\
  (KeyboardInterrupt = RecursionError \/ is_Exception KeyboardInterrupt = false) /\
  (fst (log_info "x" w) = Raised KeyboardInterrupt /\
   streams (snd (log_info "x" w)) = streams w) /\
  (fst (log_error "x" w) = Raised KeyboardInterrupt /\
   streams (snd (log_error "x" w)) = streams w).
Proof.
  intros w.
  split; [apply faulty_loaded_configured|]. split; [reflexivity|].
  split; [now right|].
  apply (log_calls_reraise_fatal 2 w
           {| Stream_fault := Some KeyboardInterrupt; Stream_written := [] |}
           KeyboardInterrupt "x");
    [apply faulty_loaded_configured | reflexivity | reflexivity | now right].
Defined.

Lemma Logger_log_reported sid w f e s g level m :
  configured sid w ->
  streams w !! sid = Some f -> Stream_fault f = Some e ->
  is_Exception e = true -> e <> RecursionError ->
  raiseExceptions w = true -> sys_stderr w = Some s ->
  streams w !! s = Some g -> Stream_fault g = None ->
  INFO <= level ->
  exists w', Logger_log level m [] w = (Returned tt, w') /\
    output s w' = output s w ++ error_report (record_of w level m) e /\
    (forall s', s' <> s -> streams w' !! s' = streams w !! s').
Proof.
  intros Hw Hf He Hexc Hrec Hre Herr Hg Hok Hl.
  destruct (Logger_log_as_emit sid w level m Hw Hl) as (c & _ & E).
  rewrite E.
  rewrite (StreamHandler_emit_fault sid _ _ f e); [| reflexivity | exact Hf | exact He].
  set (w1 := after_call c (streams w) (S (clock_reads w)) w).
  destruct (Handler_handleError_report (facade_handler sid)
              (record_of w level m) e w1 s g Hre Herr Hg Hok)
    as (w' & E' & Hout & Hrest).
  exists w'. split.
  - destruct e; try discriminate; try congruence; cbn [is_Exception]; exact E'.
  - split; [exact Hout | exact Hrest].
Qed.

(** X5: when the sink's write fails with an ordinary exception while
    [sys.stderr] is a file that accepts writes (so another object than
    the sink), [log_info] and [log_error] return normally, the report of
    [handleError] for that exception is appended to [sys.stderr], and
    every other stream, the sink included, is left as it was. *)
Theorem log_calls_report_failure (sid : nat) (w : World) (f : Stream) (e : exn)
    (s : nat) (g : Stream) (m : string) :
  configured sid w ->
  streams w !! sid = Some f -> Stream_fault f = Some e ->
  is_Exception e = true -> e <> RecursionError ->
  raiseExceptions w = true -> sys_stderr w = Some s ->
  streams w !! s = Some g -> Stream_fault g = None ->
  (exists w', log_info m w = (Returned tt, w') /\
     output s w' = output s w ++ error_report (record_of w INFO m) e /\
     (forall s', s' <> s -> streams w' !! s' = streams w !! s')) /\
  (exists w', log_error m w = (Returned tt, w') /\
     output s w' = output s w ++ error_report (record_of w ERROR m) e /\
     (forall s', s' <> s -> streams w' !! s' = streams w !! s')).
Proof.
  intros Hw Hf He Hexc Hrec Hre Herr Hg Hok.
  rewrite (log_info_as_log sid w m Hw), (log_error_as_log sid w m Hw).
  split; apply (Logger_log_reported sid w f e s g); auto;
    unfold INFO, ERROR; lia.
Qed.

Lemma log_calls_report_failure_witness :
  let w := rebind_stderr (Some 1%nat) stderr_closed in
  configured 2 w /\
  streams w !! 2%nat
  = Some {| Stream_fault := Some ValueError; Stream_written := [] |} /\
  is_Exception ValueError = true /\ ValueError <> RecursionError /\
  raiseExceptions w = true /\ sys_stderr w = Some 1%nat /\
  streams w !! 1%nat = Some {| Stream_fault := None; Stream_written := [] |} /\
  (exists w', log_info "x" w = (Returned tt, w') /\
     output 1 w' = output 1 w ++ error_report (record_of w INFO "x") ValueError /\
     (forall s', s' <> 1%nat -> streams w' !! s' = streams w !! s')) /\
  (exists w', log_error "x" w = (Returned tt, w') /\
     output 1 w' = output 1 w ++ error_report (record_of w ERROR "x") ValueError /\
     (forall s', s' <> 1%nat -> streams w' !! s' = streams w !! s')).
Proof.
  intros w.
  assert (configured 2 w) as Hw.
  { split; try reflexivity. intros l b Hl. cbn in Hl. discriminate. }
  split; [exact Hw|]. split; [reflexivity|]. split; [reflexivity|].
  split; [discriminate|]. split; [reflexivity|]. split; [reflexivity|].
  split; [reflexivity|].
  apply (log_calls_report_failure 2 w
           {| Stream_fault := Some ValueError; Stream_written := [] |} ValueError
           1%nat {| Stream_fault := None; Stream_written := [] |} "x");
    try reflexivity; [exact Hw | discriminate].
Defined.

Lemma Logger_log_report_fails sid w f e s g e' level m :
  configured sid w ->
  streams w !! sid = Some f -> Stream_fault f = Some e ->
  is_Exception e = true -> e <> RecursionError ->
  raiseExceptions w = true -> sys_stderr w = Some s ->
  streams w !! s = Some g -> Stream_fault g = Some e' -> e' <> OSError ->
  INFO <= level ->
  fst (Logger_log level m [] w) = Raised e' /\
  streams (snd (Logger_log level m [] w)) = streams w.
Proof.
  intros Hw Hf He Hexc Hrec Hre Herr Hg He' Hos Hl.
  destruct (Logger_log_as_emit sid w level m Hw Hl) as (c & _ & E).
  rewrite E.
  rewrite (StreamHandler_emit_fault sid _ _ f e); [| reflexivity | exact Hf | exact He].
  set (w1 := after_call c (streams w) (S (clock_reads w)) w).
  pose proof (Handler_handleError_fault (facade_handler sid)
                (record_of w level m) e w1 s g e' Hre Herr Hg He') as E'.
  assert (match e with
          | RecursionError => (Raised e, w1)
          | _ => if is_Exception e
                 then Handler_handleError (facade_handler sid)
                        (record_of w level m) e w1
                 else (Raised e, w1)
          end = (Raised e', w1)) as ->.
  { destruct e; try discriminate; try congruence; cbn [is_Exception];
      rewrite E'; destruct e'; congruence. }
  split; reflexivity.
Qed.

(** X6: when the sink's write fails with an ordinary exception and the
    write of the report to [sys.stderr] fails with an exception other
    than [OSError], that second exception is the one that [log_info] and
    [log_error] raise to the caller, and no stream has received
    anything. *)
Theorem log_calls_report_raises (sid : nat) (w : World) (f : Stream) (e : exn)
    (s : nat) (g : Stream) (e' : exn) (m : string) :
  configured sid w ->
  streams w !! sid = Some f -> Stream_fault f = Some e ->
  is_Exception e = true -> e <> RecursionError ->
  raiseExceptions w = true -> sys_stderr w = Some s ->
  streams w !! s = Some g -> Stream_fault g = Some e' -> e' <> OSError ->
  (fst (log_info m w) = Raised e' /\ streams (snd (log_info m w)) = streams w) /\
  (fst (log_error m w) = Raised e' /\ streams (snd (log_error m w)) = streams w).
Proof.
  intros Hw Hf He Hexc Hrec Hre Herr Hg He' Hos.
  rewrite (log_info_as_log sid w m Hw), (log_error_as_log sid w m Hw).
  split; apply (Logger_log_report_fails sid w f e s g e'); auto;
    unfold INFO, ERROR; lia.
Qed.

Lemma log_calls_report_raises_witness :
  let w := snd (configure (faulty_process sample_clock ValueError)) in
  let f := {| Stream_fault := Some ValueError; Stream_written := [] |} in
  configured 2 w /\
  streams w !! 2%nat = Some f /\ Stream_fault f = Some ValueError /\
  is_Exception ValueError = true /\ ValueError <> RecursionError /\
  raiseExceptions w = true /\ sys_stderr w = Some 2%nat /\
  ValueError <> OSError /\
  (fst (log_info "x" w) = Raised ValueError /\
   streams (snd (log_info "x" w)) = streams w) /\
  (fst (log_error "x" w) = Raised ValueError /\
   streams (snd (log_error "x" w)) = streams w).
Proof.
  intros w f.
  split; [apply faulty_loaded_configured|].
  repeat (split; [first [reflexivity | discriminate]|]).
  apply (log_calls_report_raises 2 w f ValueError 2%nat f ValueError "x");
    try reflexivity; try discriminate.
  apply faulty_loaded_configured.
Defined.

(** ** The handler keeps the file it was given at load *)

(** X7: the handler installed at load holds the file object that
    [sys.stderr] was then; after the host rebinds [sys.stderr] to
    anything else, [log_info] and [log_error] still append their line to
    that first file and leave every other stream alone. *)
Theorem log_calls_ignore_rebinding (sid : nat) (w : World) (s : option nat)
    (m : string) :
  configured sid w -> writable sid w ->
  (exists w', log_info m (rebind_stderr s w) = (Returned tt, w') /\
     output sid w'
     = output sid w ++ [Text (line_of (clock w (clock_reads w)) INFO m +:+ LF)] /\
     (forall sid', sid' <> sid -> streams w' !! sid' = streams w !! sid')) /\
  (exists w', log_error m (rebind_stderr s w) = (Returned tt, w') /\
     output sid w'
     = output sid w ++ [Text (line_of (clock w (clock_reads w)) ERROR m +:+ LF)] /\
     (forall sid', sid' <> sid -> streams w' !! sid' = streams w !! sid')).
Proof.
  intros Hw Hok.
  assert (configured sid (rebind_stderr s w)) as Hw'.
  { destruct Hw as [H1 H2 H3 H4 H5]. split; assumption. }
  assert (writable sid (rebind_stderr s w)) as Hok' by exact Hok.
  rewrite (log_info_as_log sid _ m Hw'), (log_error_as_log sid _ m Hw').
  split.
  - destruct (Logger_log_accepts sid _ INFO m Hw' Hok') as (w' & E & Hout & Hrest & _);
      [reflexivity|]. eauto.
  - destruct (Logger_log_accepts sid _ ERROR m Hw' Hok') as (w' & E & Hout & Hrest & _);
      [unfold INFO, ERROR; lia|]. eauto.
Qed.

Lemma log_calls_ignore_rebinding_witness :
  let w := loaded sample_clock in
  configured 2 w /\ writable 2 w /\
  (exists w', log_info "x" (rebind_stderr (Some 1%nat) w) = (Returned tt, w') /\
     output 2 w'
     = output 2 w ++ [Text (line_of (clock w (clock_reads w)) INFO "x" +:+ LF)] /\
     (forall sid', sid' <> 2%nat -> streams w' !! sid' = streams w !! sid')) /\
  (exists w', log_error "x" (rebind_stderr (Some 1%nat) w) = (Returned tt, w') /\
     output 2 w'
     = output 2 w ++ [Text (line_of (clock w (clock_reads w)) ERROR "x" +:+ LF)] /\
     (forall sid', sid' <> 2%nat -> streams w' !! sid' = streams w !! sid')).
Proof.
  intros w.
  split; [apply loaded_configured|]. split; [apply loaded_writable|].
  apply (log_calls_ignore_rebinding 2 w (Some 1%nat) "x");
    [apply loaded_configured | apply loaded_writable].
Defined.

(** ** The layout of the timestamp *)

Lemma digits_width (f : nat -> string) (width lo len : nat) :
  forallb (fun k => Nat.eqb (String.length (f k)) width) (seq lo len) = true ->
  forall n, (lo <= n < lo + len)%nat -> String.length (f n) = width.
Proof.
  intros Hall n Hn. rewrite forallb_forall in Hall.
  apply Nat.eqb_eq, Hall, in_seq. exact Hn.
Qed.

Lemma zfill2_width n :
  Z.of_nat n < 100 -> String.length (zfill 2 (str_nat n)) = 2%nat.
Proof.
  intros Hn.
  apply (digits_width (fun k => zfill 2 (str_nat k)) 2 0 100);
    [vm_compute; reflexivity | lia].
Qed.

Lemma zfill3_width n :
  Z.of_nat n < 1000 -> String.length (zfill 3 (str_nat n)) = 3%nat.
Proof.
  intros Hn.
  apply (digits_width (fun k => zfill 3 (str_nat k)) 3 0 (Z.to_nat 1000));
    [vm_compute; reflexivity | lia].
Qed.

Lemma year_width n :
  1000 <= Z.of_nat n <= 9999 -> String.length (str_nat n) = 4%nat.
Proof.
  intros Hn.
  apply (digits_width str_nat 4 (Z.to_nat 1000) (Z.to_nat 9000));
    [vm_compute; reflexivity | lia].
Qed.

Lemma length2_inv s :
  String.length s = 2%nat -> exists a b, s = String a (String b "").
Proof. destruct s as [|a [|b [|c s]]]; try discriminate. eauto. Qed.

Lemma length3_inv s :
  String.length s = 3%nat -> exists a b c, s = String a (String b (String c "")).
Proof. destruct s as [|a [|b [|c [|d s]]]]; try discriminate. eauto. Qed.

Lemma length4_inv s :
  String.length s = 4%nat ->
  exists a b c d, s = String a (String b (String c (String d ""))).
Proof. destruct s as [|a [|b [|c [|d [|e s]]]]]; try discriminate. eauto. Qed.

(** X8: for a clock reading with a four-digit year, the timestamp field
    is exactly 23 characters in the layout [YYYY-MM-DD HH:MM:SS,mmm]:
    the punctuation sits at columns 4, 7, 10, 13, 16 and 19, and the
    columns between them hold the year, the two-digit month, day, hour,
    minute and second, and the three-digit milliseconds. *)
Theorem asctime_layout (ct : WallClock) :
  fits_columns ct ->
  let ts := asctime_of ct in
  String.length ts = 23%nat /\
  map (fun i => String.get i ts) [4; 7; 10; 13; 16; 19]%nat
  = [Some "-"; Some "-"; Some " "; Some ":"; Some ":"; Some ","]%char /\
  substring 0 4 ts = str_nat (tm_year ct) /\
  substring 5 2 ts = zfill 2 (str_nat (tm_mon ct)) /\
  substring 8 2 ts = zfill 2 (str_nat (tm_mday ct)) /\
  substring 11 2 ts = zfill 2 (str_nat (tm_hour ct)) /\
  substring 14 2 ts = zfill 2 (str_nat (tm_min ct)) /\
  substring 17 2 ts = zfill 2 (str_nat (tm_sec ct)) /\
  substring 20 3 ts = zfill 3 (str_nat (msecs ct)).
Proof.
  intros (Hy & Hmo & Hd & Hh & Hmi & Hs & Hms) ts. subst ts.
  unfold asctime_of, strftime_default.
  destruct (length4_inv _ (year_width _ Hy)) as (y1 & y2 & y3 & y4 & ->).
  destruct (length2_inv _ (zfill2_width _ Hmo)) as (o1 & o2 & ->).
  destruct (length2_inv _ (zfill2_width _ Hd)) as (d1 & d2 & ->).
  destruct (length2_inv _ (zfill2_width _ Hh)) as (h1 & h2 & ->).
  destruct (length2_inv _ (zfill2_width _ Hmi)) as (i1 & i2 & ->).
  destruct (length2_inv _ (zfill2_width _ Hs)) as (s1 & s2 & ->).
  destruct (length3_inv _ (zfill3_width _ Hms)) as (k1 & k2 & k3 & ->).
  repeat split; reflexivity.
Qed.

Lemma asctime_layout_witness :
  fits_columns (sample_clock 0%nat) /\
  let ts := asctime_of (sample_clock 0%nat) in
  String.length ts = 23%nat /\
  map (fun i => String.get i ts) [4; 7; 10; 13; 16; 19]%nat
  = [Some "-"; Some "-"; Some " "; Some ":"; Some ":"; Some ","]%char /\
  substring 0 4 ts = str_nat (tm_year (sample_clock 0%nat)) /\
  substring 5 2 ts = zfill 2 (str_nat (tm_mon (sample_clock 0%nat))) /\
  substring 8 2 ts = zfill 2 (str_nat (tm_mday (sample_clock 0%nat))) /\
  substring 11 2 ts = zfill 2 (str_nat (tm_hour (sample_clock 0%nat))) /\
  substring 14 2 ts = zfill 2 (str_nat (tm_min (sample_clock 0%nat))) /\
  substring 17 2 ts = zfill 2 (str_nat (tm_sec (sample_clock 0%nat))) /\
  substring 20 3 ts = zfill 3 (str_nat (msecs (sample_clock 0%nat))).
Proof.
  assert (fits_columns (sample_clock 0%nat)) as H.
  { unfold fits_columns. vm_compute.
    repeat split; try reflexivity; intros Hc; discriminate Hc. }
  split; [exact H|].
  apply (asctime_layout (sample_clock 0%nat)). exact H.
Defined.

(** ** What line 6 installs *)

(** X9: in any process whose root logger has no handler yet, whatever
    its level was, line 6 returns normally, sets the root level to
    [INFO], installs exactly one handler, at level [NOTSET], with the
    module's template and bound to the file object that [sys.stderr] is
    at that moment, empties the [isEnabledFor] cache, and writes
    nothing. *)
Theorem configure_installs (sid : nat) (w : World) :
  Logger_handlers (root w) = [] -> sys_stderr w = Some sid ->
  exists w',
    configure w = (Returned tt, w') /\
    configuration w' = (INFO, [facade_handler sid]) /\
    Logger__cache (root w') = ∅ /\
    streams w' = streams w /\ sys_stderr w' = sys_stderr w /\
    Logger_disabled (root w') = Logger_disabled (root w) /\
    manager_disable w' = manager_disable w /\
    clock_reads w' = clock_reads w.
Proof.
  destruct w as [[lv hs dis ca] md re err ss ck n]. cbn.
  intros -> ->. eexists. split; [reflexivity|]. repeat split.
Qed.

Lemma configure_installs_witness :
  Logger_handlers (root (fresh_process sample_clock)) = [] /\
  sys_stderr (fresh_process sample_clock) = Some 2%nat /\
  exists w',
    configure (fresh_process sample_clock) = (Returned tt, w') /\
    configuration w' = (INFO, [facade_handler 2]) /\
    Logger__cache (root w') = ∅ /\
    streams w' = streams (fresh_process sample_clock) /\
    sys_stderr w' = sys_stderr (fresh_process sample_clock) /\
    Logger_disabled (root w') = Logger_disabled (root (fresh_process sample_clock)) /\
    manager_disable w' = manager_disable (fresh_process sample_clock) /\
    clock_reads w' = clock_reads (fresh_process sample_clock).
Proof.
  split; [reflexivity|]. split; [reflexivity|].
  apply (configure_installs 2 (fresh_process sample_clock)); reflexivity.
Defined.

(** ** A process without [sys.stderr] *)

Lemma StreamHandler_emit_no_stream (r : LogRecord) (w : World) :
  LogRecord_args r = [] ->
  StreamHandler_emit {| Handler_level := NOTSET;
                        Handler_formatter := Some {| _fmt := FORMAT |};
                        Handler_stream := None |} r w
  = Handler_handleError {| Handler_level := NOTSET;
                           Handler_formatter := Some {| _fmt := FORMAT |};
                           Handler_stream := None |} r AttributeError w.
Proof.
  intros Hargs.
  unfold StreamHandler_emit, try_except, bind, lift, Handler_format.
  cbn [Handler_formatter Handler_stream].
  rewrite (Formatter_format_FORMAT r Hargs). reflexivity.
Qed.

Lemma Logger_log_no_stream (w : World) (level : Z) (m : string) :
  Logger_handlers (root w)
  = [{| Handler_level := NOTSET;
        Handler_formatter := Some {| _fmt := FORMAT |};
        Handler_stream := None |}] ->
  sys_stderr w = None ->
  fst (Logger_log level m [] w) = Returned tt /\
  streams (snd (Logger_log level m [] w)) = streams w.
Proof.
  intros Hh Herr. unfold Logger_log, bind.
  assert (forall w1, Logger_handlers (root w1) = Logger_handlers (root w) ->
                     sys_stderr w1 = None ->
                     Logger__log level m [] w1 = (Returned tt, tick w1)) as Hlog.
  { intros w1 Hh1 Herr1.
    unfold Logger__log, Logger_makeRecord, bind at 1.
    unfold Logger_handle, bind at 1, gets at 1. cbn [tick root].
    destruct (Logger_disabled (root w1)); cbn [negb]; [reflexivity|].
    unfold Logger_callHandlers, bind at 1, gets at 1. cbn [tick root].
    rewrite Hh1, Hh. cbn [call_each Handler_level LogRecord_levelno].
    change (bool_decide (length [_] = 0%nat)) with false. cbv iota.
    unfold Handler_handle. rewrite bind_ret_tt.
    destruct (NOTSET <=? level); [|reflexivity].
    rewrite bind_ret_tt, StreamHandler_emit_no_stream by reflexivity.
    now rewrite Handler_handleError_quiet by (right; exact Herr1). }
  unfold Logger_isEnabledFor.
  destruct (Logger_disabled (root w)); [split; reflexivity|].
  destruct (Logger__cache (root w) !! level) as [[|]|].
  - rewrite Hlog by auto. split; reflexivity.
  - split; reflexivity.
  - destruct (if level <=? manager_disable w then false
              else Logger_getEffectiveLevel w <=? level).
    + rewrite Hlog by auto. split; reflexivity.
    + split; reflexivity.
Qed.

(** X10: when the module is loaded in a process that has no [sys.stderr]
    ([sys.stderr] is [None]) and no handler yet, the handler it installs
    has no file: as long as [sys.stderr] stays [None], [log_info] and
    [log_error] return normally and write nothing anywhere. *)
Theorem log_calls_without_stderr (w : World) (m : string) :
  Logger_handlers (root w) = [] -> sys_stderr w = None ->
  let w0 := snd (configure w) in
  (fst (log_info m w0) = Returned tt /\ streams (snd (log_info m w0)) = streams w) /\
  (fst (log_error m w0) = Returned tt /\ streams (snd (log_error m w0)) = streams w).
Proof.
  intros Hh0 Herr0 w0.
  assert (Logger_handlers (root w0)
          = [{| Handler_level := NOTSET;
                Handler_formatter := Some {| _fmt := FORMAT |};
                Handler_stream := None |}] /\
          sys_stderr w0 = None /\ streams w0 = streams w) as (Hh & Herr & Hs).
  { subst w0. destruct w as [[lv hs dis ca] md re err ss ck n].
    cbn in Hh0, Herr0. subst. repeat split. }
  assert (Logger_handlers (root w0) <> []) as Hne by (rewrite Hh; discriminate).
  rewrite (log_info_installed w0 m Hne), (log_error_installed w0 m Hne).
  rewrite <- Hs.
  split; apply (Logger_log_no_stream w0 _ m Hh Herr).
Qed.

Lemma log_calls_without_stderr_witness :
  let w := rebind_stderr None (fresh_process sample_clock) in
  Logger_handlers (root w) = [] /\ sys_stderr w = None /\
  let w0 := snd (configure w) in
  (fst (log_info "x" w0) = Returned tt /\
   streams (snd (log_info "x" w0)) = streams w) /\
  (fst (log_error "x" w0) = Returned tt /\
   streams (snd (log_error "x" w0)) = streams w).
Proof.
  intros w. split; [reflexivity|]. split; [reflexivity|].
  apply (log_calls_without_stderr w "x"); reflexivity.
Defined.
